(** * bb_mpu9150: calibration loading and the sampling loop

    A shallow embedding of the two front ends of the MPU-9150 package,
    - [src/linux-mpu9150/imu.c]  (console variant, module [Imu]) and
    - [src/mpu9150_node.cpp]     (ROS publisher variant, module [Node]):
    the option loop of [main], the start-up of the driver, the calibration
    loader [set_cal] and the sampling loop.

    Conventions of the embedding.
    - C integers are [Z] with the conversion written out: [short] is 16 bits,
      [int] and [unsigned int] 32 bits, [long] and [unsigned long] 64 bits
      (LP64 Linux).  Division is C's truncating division, [Z.quot].
      [atoi] is glibc's, [(int) strtol(s, NULL, 10)].  With these widths
      the [long] arithmetic of [set_cal] cannot overflow, its operands being
      [int]s.
    - The driver (mpu9150.h), the glue layer (linux_glue.h), libc's stdio and
      the ROS client library are external.  Every call into them is recorded
      as an [event] in a chronological trace; what they return comes from an
      oracle, the record [env].
    - [exit] and the unbounded loops are handled by the [outcome] of a
      computation: [Ret v], [Exit code] or [Timeout] (loop fuel used up).
    - The SIGINT handler only executes [done = 1].  [done] is read nowhere
      but in the loop test of [read_loop], so delivery of the signal is
      modelled at the interruption points [intr] of the sampling loops:
      before each test of the loop condition and before each external call
      of the loop.  A signal that arrives earlier, once the handler is
      installed, has the effect of one at the first interruption point. *)

From stdpp Require Import gmap strings list.
From Stdlib Require Import ZArith Lia Ascii.

Local Open Scope Z_scope.

(** ** Machine integers *)

Module CInt.

(** Value of [x] converted to an unsigned [w]-bit integer. *)
Definition wrap (w x : Z) : Z := x mod 2 ^ w.

(** Value of [x] converted to a signed [w]-bit integer (two's complement). *)
Definition swrap (w x : Z) : Z := (x + 2 ^ (w - 1)) mod 2 ^ w - 2 ^ (w - 1).

Definition to_short (x : Z) : Z := swrap 16 x.
Definition to_int (x : Z) : Z := swrap 32 x.
Definition to_uint (x : Z) : Z := wrap 32 x.
Definition to_long (x : Z) : Z := swrap 64 x.
Definition to_ulong (x : Z) : Z := wrap 64 x.

Definition SHRT_MIN : Z := -32768.
Definition SHRT_MAX : Z := 32767.
Definition INT_MIN : Z := -2147483648.
Definition INT_MAX : Z := 2147483647.
Definition LONG_MIN : Z := -9223372036854775808.
Definition LONG_MAX : Z := 9223372036854775807.

Definition in_short (x : Z) : Prop := SHRT_MIN <= x <= SHRT_MAX.
Definition in_int (x : Z) : Prop := INT_MIN <= x <= INT_MAX.

(** [long] arithmetic. *)
Definition long_add (a b : Z) : Z := to_long (a + b).
Definition long_sub (a b : Z) : Z := to_long (a - b).
Definition long_div (a b : Z) : Z := to_long (Z.quot a b).

End CInt.
Export CInt.

(** ** The parts of libc that [set_cal] uses *)

Module Libc.

Definition newline : ascii := "010"%char.
Definition nl : string := String newline EmptyString.

(** [isspace] in the C locale: space, \t, \n, \v, \f, \r. *)
Definition isspace (c : ascii) : bool :=
  let n := nat_of_ascii c in
  ((n =? 32) || ((9 <=? n) && (n <=? 13)))%nat.

Definition isdigit (c : ascii) : bool :=
  let n := nat_of_ascii c in ((48 <=? n) && (n <=? 57))%nat.

Definition digit_val (c : ascii) : Z := Z.of_nat (nat_of_ascii c) - 48.

Fixpoint skip_space (s : string) : string :=
  match s with
  | String c s' => if isspace c then skip_space s' else s
  | EmptyString => s
  end.

(** The decimal number that the leading digits of [s] spell, on top of
    [acc]. *)
Fixpoint digits (acc : Z) (s : string) : Z :=
  match s with
  | String c s' => if isdigit c then digits (acc * 10 + digit_val c) s' else acc
  | EmptyString => acc
  end.

(** [strtol(s, NULL, 10)]: white space, an optional sign, digits; the
    result saturates at the bounds of [long]. *)
Definition strtol (s : string) : Z :=
  match skip_space s with
  | String "-"%char s' => Z.max LONG_MIN (- digits 0 s')
  | String "+"%char s' => Z.min LONG_MAX (digits 0 s')
  | s' => Z.min LONG_MAX (digits 0 s')
  end.

(** [atoi] as glibc defines it: [(int) strtol(s, NULL, 10)]. *)
Definition atoi (s : string) : Z := to_int (strtol s).

(** The characters one [fgets] call stores: at most [n] of them, up to and
    including the first newline; the second component is what is left of
    the stream. *)
Fixpoint fgets_chars (n : nat) (f : string) : string * string :=
  match n, f with
  | S n', String c f' =>
      if Ascii.eqb c newline then (String c EmptyString, f')
      else let (l, r) := fgets_chars n' f' in (String c l, r)
  | _, _ => (EmptyString, f)
  end.

(** The C string that a buffer holds, as [printf("%s")] reads it: the
    characters before the first NUL. *)
Fixpoint c_str (buff : string) : string :=
  match buff with
  | String c buff' =>
      if Ascii.eqb c "000" then EmptyString else String c (c_str buff')
  | EmptyString => EmptyString
  end.

(** [fgets(buff, size, f)]: [None] is the NULL returned at end of file. *)
Definition fgets (size : nat) (f : string) : option (string * string) :=
  match f with
  | EmptyString => None
  | _ => Some (fgets_chars (size - 1) f)
  end.

Definition ULONG_MAX : Z := 18446744073709551615.

(** The value of [c] as a digit in [base], if it is one: letters count
    from 10, in either case. *)
Definition digit_in (base : Z) (c : ascii) : option Z :=
  let n := Z.of_nat (nat_of_ascii c) in
  let v := if (48 <=? n) && (n <=? 57) then n - 48
           else if (97 <=? n) && (n <=? 122) then n - 87
           else if (65 <=? n) && (n <=? 90) then n - 55
           else base in
  if v <? base then Some v else None.

(** The number that the leading digits of [s] spell in [base], on top of
    [acc]. *)
Fixpoint number (base acc : Z) (s : string) : Z :=
  match s with
  | String c s' =>
      match digit_in base c with
      | Some v => number base (acc * base + v) s'
      | None => acc
      end
  | EmptyString => acc
  end.

(** [strtoul(s, NULL, 0)] as glibc defines it: white space, an optional
    sign, then a number in base 16 after 0x or 0X, in base 8 after 0, in
    base 10 otherwise; the result saturates at ULONG_MAX, and a minus sign
    negates it as an [unsigned long].  Without digits the result is 0. *)
Definition strtoul (s : string) : Z :=
  let s1 := skip_space s in
  let signed :=
    match s1 with
    | String "-"%char s' => (true, s')
    | String "+"%char s' => (false, s')
    | _ => (false, s1)
    end in
  let based :=
    match signed.2 with
    | String "0"%char (String "x"%char s') => (16, s')
    | String "0"%char (String "X"%char s') => (16, s')
    | String "0"%char _ => (8, signed.2)
    | _ => (10, signed.2)
    end in
  let v := number based.1 0 based.2 in
  if ULONG_MAX <? v then ULONG_MAX
  else if signed.1 then to_ulong (- v) else v.

End Libc.
Export Libc.

(** ** Driver data, events and the world *)

(** [caldata_t] of mpu9150.h: [short offset[3]; short range[3]]. *)
Record caldata_t := { offset : list Z; range : list Z }.

Inductive event :=
| EvSigint                            (* SIGINT delivered, handler ran *)
| EvSetDebug (on : Z)                 (* mpu9150_set_debug *)
| EvInit (bus rate mix : Z)           (* mpu9150_init *)
| EvSetAccelCal (cal : caldata_t)     (* mpu9150_set_accel_cal *)
| EvSetMagCal (cal : caldata_t)       (* mpu9150_set_mag_cal *)
| EvRead (ret : Z)                    (* mpu9150_read and what it returned *)
| EvExit                              (* mpu9150_exit *)
| EvDelay (ms : Z)                    (* linux_delay_ms *)
| EvPrintEuler                        (* print_fused_euler_angles *)
| EvPrintf (s : string)
| EvPerror (s : string)
| EvRosInfo (counter : Z)             (* ROS_INFO of a formatted sample *)
| EvPublish (fresh : bool)            (* chatter_pub.publish(msg); [fresh]
                                         tells whether msg.data was set *)
| EvSpinOnce                          (* ros::spinOnce *)
| EvRateSleep.                        (* loop_rate.sleep, ros::Rate(10) *)

(** What the environment decides. *)
Record env := {
  fs : gmap string string;      (* the files fopen can open, with contents *)
  sigaction_ret : Z;            (* result of sigaction(SIGINT, ...) *)
  init_ret : Z;                 (* result of mpu9150_init *)
  read_ret : nat -> Z;          (* result of the k-th mpu9150_read *)
  ros_ok : nat -> bool;         (* result of the k-th ros::ok() *)
  sigint_at : nat -> bool       (* is SIGINT delivered at interruption point k *)
}.

Record world := {
  done : Z;                     (* the global [int done] *)
  nintr : nat;                  (* interruption points passed *)
  nread : nat;                  (* mpu9150_read calls made *)
  nok : nat;                    (* ros::ok() calls made *)
  trace : list event
}.

(** Program start: globals are zero-initialised. *)
Definition world0 : world :=
  {| done := 0; nintr := 0; nread := 0; nok := 0; trace := [] |}.

(** The command line after option parsing. *)
Record options := {
  i2c_bus : Z;
  sample_rate : Z;
  yaw_mix_factor : Z;
  verbose : Z;
  mag_cal_file : option string;
  accel_cal_file : option string
}.

(** ** Computations *)

Inductive outcome (A : Type) :=
| Ret (a : A)
| Exit (code : Z)
| Timeout.
Arguments Ret {A} a.
Arguments Exit {A} code.
Arguments Timeout {A}.

Definition M (A : Type) : Type := env -> world -> outcome A * world.

Definition ret {A} (a : A) : M A := fun _ w => (Ret a, w).

Definition bind {A B} (m : M A) (k : A -> M B) : M B :=
  fun e w =>
    match m e w with
    | (Ret a, w') => k a e w'
    | (Exit c, w') => (Exit c, w')
    | (Timeout, w') => (Timeout, w')
    end.

Declare Scope prog_scope.
Delimit Scope prog_scope with prog.
Notation "x <- m ;; k" := (bind m (fun x => k))
  (at level 100, m at next level, k at level 200, right associativity) : prog_scope.
Notation "m ;; k" := (bind m (fun _ => k))
  (at level 100, k at level 200, right associativity) : prog_scope.
Bind Scope prog_scope with M.
Local Open Scope prog_scope.

Definition exit {A} (code : Z) : M A := fun _ w => (Exit code, w).
Definition timeout {A} : M A := fun _ w => (Timeout, w).

Definition ask : M env := fun e w => (Ret e, w).

(** The world after one more event. *)
Definition log (ev : event) (w : world) : world :=
  {| done := done w; nintr := nintr w; nread := nread w; nok := nok w;
     trace := trace w ++ [ev] |}.

(** An external call with no result of interest. *)
Definition emit (ev : event) : M unit := fun _ w => (Ret tt, log ev w).

Definition get_done : M Z := fun _ w => (Ret (done w), w).

(** [sigint_handler]: [done = 1]. *)
Definition sigint_handler : M unit :=
  fun _ w =>
    (Ret tt, {| done := 1; nintr := nintr w; nread := nread w;
                nok := nok w; trace := trace w ++ [EvSigint] |}).

(** An interruption point: a SIGINT that the environment delivers here runs
    the handler. *)
Definition intr : M unit :=
  fun e w =>
    let w' := {| done := done w; nintr := S (nintr w); nread := nread w;
                 nok := nok w; trace := trace w |} in
    if sigint_at e (nintr w) then sigint_handler e w' else (Ret tt, w').

Definition mpu9150_read : M Z :=
  fun e w =>
    let r := read_ret e (nread w) in
    (Ret r, {| done := done w; nintr := nintr w; nread := S (nread w);
               nok := nok w; trace := trace w ++ [EvRead r] |}).

Definition ros_ok_call : M bool :=
  fun e w =>
    (Ret (ros_ok e (nok w)),
     {| done := done w; nintr := nintr w; nread := nread w;
        nok := S (nok w); trace := trace w |}).

Definition printf (s : string) : M unit := emit (EvPrintf s).
Definition perror (s : string) : M unit := emit (EvPerror s).
Definition linux_delay_ms (ms : Z) : M unit := emit (EvDelay ms).
Definition mpu9150_exit : M unit := emit EvExit.

Definition mpu9150_set_debug (on : Z) : M unit := emit (EvSetDebug on).

Definition mpu9150_init (bus rate mix : Z) : M Z :=
  e <- ask ;; emit (EvInit bus rate mix) ;; ret (init_ret e).

Definition print_fused_euler_angles : M unit := emit EvPrintEuler.

(** [register_sig_handler], the same in both files: install
    [sigint_handler] for SIGINT. *)
Definition register_sig_handler : M unit :=
  e <- ask ;;
  if sigaction_ret e <? 0 then perror "sigaction(SIGINT)" ;; exit 1
  else ret tt.

(** [fopen(path, "r")]: the stream is what is left to read of the file. *)
Definition fopen (path : string) : M (option string) :=
  fun e w => (Ret (fs e !! path), w).


(** ** The command line *)

(** The constants of local_defaults.h, which is not part of the sources at
    hand: they are parameters of the option parsing. *)
Record local_defaults := {
  DEFAULT_I2C_BUS : Z;
  DEFAULT_SAMPLE_RATE_HZ : Z;
  DEFAULT_YAW_MIX_FACTOR : Z;
  MIN_I2C_BUS : Z;
  MAX_I2C_BUS : Z;
  MIN_SAMPLE_RATE : Z;
  MAX_SAMPLE_RATE : Z
}.

(** What the environment decides while the options are parsed: the outcome
    of the k-th test [errno == EINVAL] (errno is set by library calls, if at
    all) and whether the k-th [malloc] succeeds. *)
Record cli_env := {
  einval : nat -> bool;
  malloc_ok : nat -> bool
}.

(** The locals of [main] at their initialisers. *)
Definition initial_options (d : local_defaults) : options :=
  {| i2c_bus := DEFAULT_I2C_BUS d; sample_rate := DEFAULT_SAMPLE_RATE_HZ d;
     yaw_mix_factor := DEFAULT_YAW_MIX_FACTOR d; verbose := 0;
     mag_cal_file := None; accel_cal_file := None |}.

Definition with_i2c_bus (v : Z) (o : options) : options :=
  {| i2c_bus := v; sample_rate := sample_rate o;
     yaw_mix_factor := yaw_mix_factor o; verbose := verbose o;
     mag_cal_file := mag_cal_file o; accel_cal_file := accel_cal_file o |}.

Definition with_sample_rate (v : Z) (o : options) : options :=
  {| i2c_bus := i2c_bus o; sample_rate := v;
     yaw_mix_factor := yaw_mix_factor o; verbose := verbose o;
     mag_cal_file := mag_cal_file o; accel_cal_file := accel_cal_file o |}.

Definition with_yaw_mix_factor (v : Z) (o : options) : options :=
  {| i2c_bus := i2c_bus o; sample_rate := sample_rate o;
     yaw_mix_factor := v; verbose := verbose o;
     mag_cal_file := mag_cal_file o; accel_cal_file := accel_cal_file o |}.

Definition with_verbose (v : Z) (o : options) : options :=
  {| i2c_bus := i2c_bus o; sample_rate := sample_rate o;
     yaw_mix_factor := yaw_mix_factor o; verbose := v;
     mag_cal_file := mag_cal_file o; accel_cal_file := accel_cal_file o |}.

Definition with_mag_cal_file (v : string) (o : options) : options :=
  {| i2c_bus := i2c_bus o; sample_rate := sample_rate o;
     yaw_mix_factor := yaw_mix_factor o; verbose := verbose o;
     mag_cal_file := Some v; accel_cal_file := accel_cal_file o |}.

Definition with_accel_cal_file (v : string) (o : options) : options :=
  {| i2c_bus := i2c_bus o; sample_rate := sample_rate o;
     yaw_mix_factor := yaw_mix_factor o; verbose := verbose o;
     mag_cal_file := mag_cal_file o; accel_cal_file := Some v |}.

(** The lines that [usage] prints, the same in both files. *)
Definition usage_text (argv_0 : string) : list string :=
  [ nl +:+ "Usage: " +:+ argv_0 +:+ " [options]" +:+ nl;
    "  -b <i2c-bus>          The I2C bus number where the IMU is. The default is 1 to use /dev/i2c-1." +:+ nl;
    "  -s <sample-rate>      The IMU sample rate in Hz. Range 2-50, default 10." +:+ nl;
    "  -y <yaw-mix-factor>   Effect of mag yaw on fused yaw data." +:+ nl;
    "                           0 = gyro only" +:+ nl;
    "                           1 = mag only" +:+ nl;
    "                           > 1 scaled mag adjustment of gyro data" +:+ nl;
    "                           The default is 4." +:+ nl;
    "  -a <accelcal file>    Path to accelerometer calibration file. Default is ./accelcal.txt" +:+ nl;
    "  -m <magcal file>      Path to mag calibration file. Default is ./magcal.txt" +:+ nl;
    "  -v                    Verbose messages" +:+ nl;
    "  -h                    Show this help" +:+ nl;
    nl +:+ "Example: " +:+ argv_0 +:+ " -b3 -s20 -y10" +:+ nl +:+ nl ].

Fixpoint printf_all (l : list string) : M unit :=
  match l with
  | [] => ret tt
  | s :: l' => printf s ;; printf_all l'
  end.

(** [usage]: the help text, then [exit(1)]. *)
Definition usage (argv_0 : string) : M unit :=
  printf_all (usage_text argv_0) ;; exit 1.

(** [p = malloc(len); if (!p) { perror("malloc"); exit(1); }
    strcpy(p, optarg);] of the cases 'a' and 'm'. *)
Definition copy_optarg (c : cli_env) (j : nat) (optarg : string) : M string :=
  if malloc_ok c j then ret optarg else perror "malloc" ;; exit 1.


(** ** The console variant, imu.c *)

Module Imu.

(** The [for] loop of [set_cal], lines 280-292, with [n] = 6 - [i]
    iterations to go: the resulting [i] and [val]. *)
Fixpoint read_vals (n i : nat) (f : string) (val : list Z) : M (nat * list Z) :=
  match n with
  | O => ret (i, val)
  | S n' =>
      match fgets 20 f with
      | None =>
          printf ("Not enough lines in calibration file" +:+ nl) ;;
          ret (i, val)
      | Some (buff, f') =>
          let val' := <[i := atoi buff]> val in
          if val' !!! i =? 0 then
            printf ("Invalid cal value: " +:+ c_str buff +:+ nl) ;;
            ret (i, val')
          else read_vals n' (S i) f' val'
      end
  end.

(** [set_cal] from the [memset] on, with the stream [f] open. *)
Definition set_cal_opened (mag : Z) (f : string) : M Z :=
  iv <- read_vals 6 0 f (replicate 6 0) ;;
  let i := iv.1 in
  let val := iv.2 in
  (* fclose(f) *)
  if negb (i =? 6)%nat then ret (-1)
  else
    let offset0 := to_short (long_div (long_add (val !!! 0%nat) (val !!! 1%nat)) 2) in
    let offset1 := to_short (long_div (long_add (val !!! 2%nat) (val !!! 3%nat)) 2) in
    let offset2 := to_short (long_div (long_add (val !!! 4%nat) (val !!! 5%nat)) 2) in
    let range0 := to_short (long_sub (val !!! 1%nat) offset0) in
    let range1 := to_short (long_sub (val !!! 3%nat) offset1) in
    let range2 := to_short (long_sub (val !!! 5%nat) offset2) in
    let cal := {| offset := [offset0; offset1; offset2];
                  range := [range0; range1; range2] |} in
    (if negb (mag =? 0) then emit (EvSetMagCal cal)
     else emit (EvSetAccelCal cal)) ;;
    ret 0.

Definition set_cal (mag : Z) (cal_file : option string) : M Z :=
  match cal_file with
  | Some path =>
      f <- fopen path ;;
      match f with
      | None => perror "open(<cal-file>)" ;; ret (-1)
      | Some f => set_cal_opened mag f
      end
  | None =>
      if negb (mag =? 0) then
        f <- fopen "./magcal.txt" ;;
        match f with
        | None => printf ("Default magcal.txt not found" +:+ nl) ;; ret 0
        | Some f => set_cal_opened mag f
        end
      else
        f <- fopen "./accelcal.txt" ;;
        match f with
        | None => printf ("Default accelcal.txt not found" +:+ nl) ;; ret 0
        | Some f => set_cal_opened mag f
        end
  end.

(** [loop_delay = (1000 / sample_rate) - 2], line 182: [unsigned int]
    arithmetic, stored in an [unsigned long]. *)
Definition loop_delay_of (sample_rate : Z) : Z :=
  to_ulong (to_uint (to_uint (Z.quot 1000 sample_rate) - 2)).

(** The body of the [while] loop, lines 189-196. *)
Definition loop_body (loop_delay : Z) : M unit :=
  intr ;;
  r <- mpu9150_read ;;
  (if r =? 0 then intr ;; print_fused_euler_angles else ret tt) ;;
  intr ;;
  linux_delay_ms loop_delay.

(** [while (!done) { ... }], lines 188-197. *)
Fixpoint while_not_done (fuel : nat) (loop_delay : Z) : M unit :=
  match fuel with
  | O => timeout
  | S fuel' =>
      intr ;;
      d <- get_done ;;
      if negb (d =? 0) then ret tt
      else loop_body loop_delay ;; while_not_done fuel' loop_delay
  end.

Definition read_loop (fuel : nat) (sample_rate : Z) : M unit :=
  (* memset(&mpu, 0, sizeof(mpudata_t)) *)
  if sample_rate =? 0 then ret tt
  else
    let loop_delay := loop_delay_of sample_rate in
    printf (nl +:+ "Entering read loop (ctrl-c to exit)" +:+ nl +:+ nl) ;;
    intr ;;
    linux_delay_ms loop_delay ;;
    while_not_done fuel loop_delay ;;
    printf (nl +:+ nl).

(** [main] from [register_sig_handler()] on, line 149. *)
Definition main (fuel : nat) (o : options) : M Z :=
  register_sig_handler ;;
  mpu9150_set_debug (verbose o) ;;
  r <- mpu9150_init (i2c_bus o) (sample_rate o) (yaw_mix_factor o) ;;
  if negb (r =? 0) then exit 1
  else
    set_cal 0 (accel_cal_file o) ;;
    set_cal 1 (mag_cal_file o) ;;
    (* free(accel_cal_file); free(mag_cal_file) *)
    read_loop fuel (to_uint (sample_rate o)) ;;
    mpu9150_exit ;;
    ret 0.

(** The option loop of [main], lines 77-147:
    [while ((opt = getopt(argc, argv, "b:s:y:a:m:vh")) != -1)], over the
    options that getopt delivers, each with its [optarg]; an option that it
    does not know, or one without its argument, comes as '?'.  [k] counts the
    errno tests and [j] the [malloc] calls made. *)
Fixpoint getopt_loop (d : local_defaults) (c : cli_env) (argv_0 : string)
    (opts : list (ascii * string)) (o : options) (k j : nat) : M options :=
  match opts with
  | [] => ret o
  | (opt, optarg) :: rest =>
      if Ascii.eqb opt "b" then
        let o' := with_i2c_bus (to_int (strtoul optarg)) o in
        (if einval c k then usage argv_0 else ret tt) ;;
        (if (i2c_bus o' <? MIN_I2C_BUS d) || (MAX_I2C_BUS d <? i2c_bus o')
         then usage argv_0 else ret tt) ;;
        getopt_loop d c argv_0 rest o' (S k) j
      else if Ascii.eqb opt "s" then
        let o' := with_sample_rate (to_int (strtoul optarg)) o in
        (if einval c k then usage argv_0 else ret tt) ;;
        (if (sample_rate o' <? MIN_SAMPLE_RATE d)
            || (MAX_SAMPLE_RATE d <? sample_rate o')
         then usage argv_0 else ret tt) ;;
        getopt_loop d c argv_0 rest o' (S k) j
      else if Ascii.eqb opt "y" then
        let o' := with_yaw_mix_factor (to_int (strtoul optarg)) o in
        (if einval c k then usage argv_0 else ret tt) ;;
        (if (yaw_mix_factor o' <? 0) || (100 <? yaw_mix_factor o')
         then usage argv_0 else ret tt) ;;
        getopt_loop d c argv_0 rest o' (S k) j
      else if Ascii.eqb opt "a" then
        file <- copy_optarg c j optarg ;;
        getopt_loop d c argv_0 rest (with_accel_cal_file file o) k (S j)
      else if Ascii.eqb opt "m" then
        file <- copy_optarg c j optarg ;;
        getopt_loop d c argv_0 rest (with_mag_cal_file file o) k (S j)
      else if Ascii.eqb opt "v" then
        getopt_loop d c argv_0 rest (with_verbose 1 o) k j
      else
        (* case 'h' and default *)
        usage argv_0 ;;
        getopt_loop d c argv_0 rest o k j
  end.

(** [main] up to [register_sig_handler()]: the options parsed. *)
Definition parse_options (d : local_defaults) (c : cli_env) (argv_0 : string)
    (opts : list (ascii * string)) : M options :=
  getopt_loop d c argv_0 opts (initial_options d) 0 0.

(** The whole of [main]. *)
Definition main_argv (d : local_defaults) (c : cli_env) (fuel : nat)
    (argv_0 : string) (opts : list (ascii * string)) : M Z :=
  o <- parse_options d c argv_0 opts ;;
  main fuel o.

End Imu.

(** ** The ROS publisher variant, mpu9150_node.cpp *)

Module Node.

(** The [for] loop of [set_cal], lines 298-310, with [n] = 6 - [i]
    iterations to go: the resulting [i] and [val]. *)
Fixpoint read_vals (n i : nat) (f : string) (val : list Z) : M (nat * list Z) :=
  match n with
  | O => ret (i, val)
  | S n' =>
      match fgets 20 f with
      | None =>
          printf ("Not enough lines in calibration file" +:+ nl) ;;
          ret (i, val)
      | Some (buff, f') =>
          let val' := <[i := atoi buff]> val in
          if val' !!! i =? 0 then
            printf ("Invalid cal value: " +:+ c_str buff +:+ nl) ;;
            ret (i, val')
          else read_vals n' (S i) f' val'
      end
  end.

(** [set_cal] from the [memset] on, with the stream [f] open. *)
Definition set_cal_opened (mag : Z) (f : string) : M Z :=
  iv <- read_vals 6 0 f (replicate 6 0) ;;
  let i := iv.1 in
  let val := iv.2 in
  (* fclose(f) *)
  if negb (i =? 6)%nat then ret (-1)
  else
    let offset0 := to_short (long_div (long_add (val !!! 0%nat) (val !!! 1%nat)) 2) in
    let offset1 := to_short (long_div (long_add (val !!! 2%nat) (val !!! 3%nat)) 2) in
    let offset2 := to_short (long_div (long_add (val !!! 4%nat) (val !!! 5%nat)) 2) in
    let range0 := to_short (long_sub (val !!! 1%nat) offset0) in
    let range1 := to_short (long_sub (val !!! 3%nat) offset1) in
    let range2 := to_short (long_sub (val !!! 5%nat) offset2) in
    let cal := {| offset := [offset0; offset1; offset2];
                  range := [range0; range1; range2] |} in
    (if negb (mag =? 0) then emit (EvSetMagCal cal)
     else emit (EvSetAccelCal cal)) ;;
    ret 0.

Definition set_cal (mag : Z) (cal_file : option string) : M Z :=
  match cal_file with
  | Some path =>
      f <- fopen path ;;
      match f with
      | None => perror "open(<cal-file>)" ;; ret (-1)
      | Some f => set_cal_opened mag f
      end
  | None =>
      if negb (mag =? 0) then
        f <- fopen "./magcal.txt" ;;
        match f with
        | None => printf ("Default magcal.txt not found" +:+ nl) ;; ret 0
        | Some f => set_cal_opened mag f
        end
      else
        f <- fopen "./accelcal.txt" ;;
        match f with
        | None => printf ("Default accelcal.txt not found" +:+ nl) ;; ret 0
        | Some f => set_cal_opened mag f
        end
  end.

(** [loop_delay = (1000 / sample_rate) - 2], line 183: [int] arithmetic,
    stored in an [unsigned long]. *)
Definition loop_delay_of (sample_rate : Z) : Z :=
  to_ulong (to_int (to_int (Z.quot 1000 sample_rate) - 2)).

(** The body of the [while] loop, lines 194-215, up to [++count]; [count]
    is the message counter. *)
Definition loop_body (count : Z) : M unit :=
  intr ;;
  r <- mpu9150_read ;;
  (if r =? 0 then emit (EvRosInfo count) else ret tt) ;;
  (* linux_delay_ms(loop_delay) is commented out in the source *)
  intr ;;
  emit (EvPublish (r =? 0)) ;;
  intr ;;
  emit EvSpinOnce ;;
  intr ;;
  emit EvRateSleep.

(** [while (ros::ok()) { ... }], lines 192-216. *)
Fixpoint while_ros_ok (fuel : nat) (count : Z) : M unit :=
  match fuel with
  | O => timeout
  | S fuel' =>
      intr ;;
      ok <- ros_ok_call ;;
      if negb ok then ret tt
      else loop_body count ;; while_ros_ok fuel' (to_int (count + 1))
  end.

(** [main] from [register_sig_handler()] on, line 168.  Before it come
    ros::init, the node handle, the publisher on "imu_euler" and
    [ros::Rate loop_rate(10)]. *)
Definition main (fuel : nat) (o : options) : M Z :=
  register_sig_handler ;;
  mpu9150_set_debug (verbose o) ;;
  r <- mpu9150_init (i2c_bus o) (sample_rate o) (yaw_mix_factor o) ;;
  if negb (r =? 0) then exit 1
  else
    set_cal 0 (accel_cal_file o) ;;
    set_cal 1 (mag_cal_file o) ;;
    (* free(accel_cal_file); free(mag_cal_file); memset(&mpu, ...) *)
    if sample_rate o =? 0 then ret (-1)
    else
      let loop_delay := loop_delay_of (sample_rate o) in
      printf (nl +:+ "Entering MPU read loop (ctrl-c to exit)" +:+ nl +:+ nl) ;;
      intr ;;
      linux_delay_ms loop_delay ;;
      while_ros_ok fuel 0 ;;
      ret 0.

(** The option loop of [main], lines 91-165:
    [while ((opt = getopt(argc, argv, "b:s:y:a:m:vh")) != -1)], over the
    options that getopt delivers, each with its [optarg]; an option that it
    does not know, or one without its argument, comes as '?'.  [k] counts the
    errno tests and [j] the [malloc] calls made. *)
Fixpoint getopt_loop (d : local_defaults) (c : cli_env) (argv_0 : string)
    (opts : list (ascii * string)) (o : options) (k j : nat) : M options :=
  match opts with
  | [] => ret o
  | (opt, optarg) :: rest =>
      if Ascii.eqb opt "b" then
        let o' := with_i2c_bus (to_int (strtoul optarg)) o in
        (if einval c k then usage argv_0 else ret tt) ;;
        (if (i2c_bus o' <? MIN_I2C_BUS d) || (MAX_I2C_BUS d <? i2c_bus o')
         then usage argv_0 else ret tt) ;;
        getopt_loop d c argv_0 rest o' (S k) j
      else if Ascii.eqb opt "s" then
        let o' := with_sample_rate (to_int (strtoul optarg)) o in
        (if einval c k then printf ("EINVAL" +:+ nl) ;; usage argv_0
         else ret tt) ;;
        (if (sample_rate o' <? MIN_SAMPLE_RATE d)
            || (MAX_SAMPLE_RATE d <? sample_rate o')
         then printf ("sample rate problem" +:+ nl) ;; usage argv_0
         else ret tt) ;;
        getopt_loop d c argv_0 rest o' (S k) j
      else if Ascii.eqb opt "y" then
        let o' := with_yaw_mix_factor (to_int (strtoul optarg)) o in
        (if einval c k then usage argv_0 else ret tt) ;;
        (if (yaw_mix_factor o' <? 0) || (100 <? yaw_mix_factor o')
         then usage argv_0 else ret tt) ;;
        getopt_loop d c argv_0 rest o' (S k) j
      else if Ascii.eqb opt "a" then
        file <- copy_optarg c j optarg ;;
        getopt_loop d c argv_0 rest (with_accel_cal_file file o) k (S j)
      else if Ascii.eqb opt "m" then
        file <- copy_optarg c j optarg ;;
        getopt_loop d c argv_0 rest (with_mag_cal_file file o) k (S j)
      else if Ascii.eqb opt "v" then
        getopt_loop d c argv_0 rest (with_verbose 1 o) k j
      else
        (* case 'h' and default *)
        usage argv_0 ;;
        getopt_loop d c argv_0 rest o k j
  end.

(** [main] up to [register_sig_handler()]: the options parsed. *)
Definition parse_options (d : local_defaults) (c : cli_env) (argv_0 : string)
    (opts : list (ascii * string)) : M options :=
  getopt_loop d c argv_0 opts (initial_options d) 0 0.

(** The whole of [main], after ros::init and the set-up of the publisher. *)
Definition main_argv (d : local_defaults) (c : cli_env) (fuel : nat)
    (argv_0 : string) (opts : list (ascii * string)) : M Z :=
  o <- parse_options d c argv_0 opts ;;
  main fuel o.

End Node.

(** ** Vocabulary of the statements *)

(** The stream that [set_cal mag cal_file] opens, if it can. *)
Definition default_cal_file (mag : Z) : string :=
  if negb (mag =? 0) then "./magcal.txt" else "./accelcal.txt".

Definition cal_stream (e : env) (mag : Z) (cal_file : option string) : option string :=
  match cal_file with
  | Some path => fs e !! path
  | None => fs e !! default_cal_file mag
  end.

(** The first [n] lines of a stream, as successive [fgets(buff, 20, f)]
    calls deliver them: a line of more than 19 characters comes in several
    pieces, each counted as a line. *)
Fixpoint lines (n : nat) (f : string) : list string :=
  match n with
  | O => []
  | S n' =>
      match fgets 20 f with
      | None => []
      | Some (buff, f') => buff :: lines n' f'
      end
  end.

Definition cal_lines (f : string) : list string := lines 6 f.

(** The lines of a file as text, each without its newline; the last one
    need not end in a newline.  [set_cal] does not see these: it sees the
    pieces that [lines] gives. *)
Fixpoint text_lines (f : string) : list string :=
  match f with
  | EmptyString => []
  | String c f' =>
      if Ascii.eqb c newline then EmptyString :: text_lines f'
      else
        match text_lines f' with
        | [] => [String c EmptyString]
        | l :: ls => String c l :: ls
        end
  end.
Definition cal_values (f : string) : list Z := atoi <$> cal_lines f.

(** The driver setter that [set_cal mag] addresses. *)
Definition setter (mag : Z) (cal : caldata_t) : event :=
  if negb (mag =? 0) then EvSetMagCal cal else EvSetAccelCal cal.

Definition is_setter (ev : event) : bool :=
  match ev with
  | EvSetAccelCal _ | EvSetMagCal _ => true
  | _ => false
  end.

(** The calibration entry of six values by the formula over the integers:
    offset = (min + max) / 2, range = max - offset, per axis. *)
Definition formula_cal (v0 v1 v2 v3 v4 v5 : Z) : caldata_t :=
  {| offset := [Z.quot (v0 + v1) 2; Z.quot (v2 + v3) 2; Z.quot (v4 + v5) 2];
     range := [v1 - Z.quot (v0 + v1) 2; v3 - Z.quot (v2 + v3) 2;
               v5 - Z.quot (v4 + v5) 2] |}.

(** The same entry with every component narrowed to [short]. *)
Definition narrow_cal (c : caldata_t) : caldata_t :=
  {| offset := to_short <$> offset c; range := to_short <$> range c |}.

Definition fits_short (c : caldata_t) : Prop :=
  Forall in_short (offset c ++ range c).

(** Counting events of a kind in a trace. *)
Definition count (p : event -> bool) (tr : list event) : nat :=
  length (List.filter p tr).

Definition is_read (ev : event) : bool :=
  match ev with EvRead _ => true | _ => false end.
Definition is_fresh_read (ev : event) : bool :=
  match ev with EvRead r => r =? 0 | _ => false end.
Definition is_print (ev : event) : bool :=
  match ev with EvPrintEuler => true | _ => false end.
Definition is_publish (ev : event) : bool :=
  match ev with EvPublish _ => true | _ => false end.
Definition is_shutdown (ev : event) : bool :=
  match ev with EvExit => true | _ => false end.
Definition is_delay (ev : event) : bool :=
  match ev with EvDelay _ => true | _ => false end.
Definition is_rate_sleep (ev : event) : bool :=
  match ev with EvRateSleep => true | _ => false end.
Definition is_sigint (ev : event) : bool :=
  match ev with EvSigint => true | _ => false end.

(** The events that a call of [set_cal] can add to the trace. *)
Definition is_cal_event (ev : event) : bool :=
  match ev with
  | EvSetAccelCal _ | EvSetMagCal _ | EvPrintf _ | EvPerror _ => true
  | _ => false
  end.

(** The events after the first SIGINT of a trace. *)
Fixpoint after_sigint (tr : list event) : list event :=
  match tr with
  | [] => []
  | ev :: tr' => if is_sigint ev then tr' else after_sigint tr'
  end.

(** [paced d delayed tr]: every [linux_delay_ms] of [tr] is one of [d]
    milliseconds, and every [mpu9150_read] comes after such a delay made
    since the read before it ([delayed] says whether one is pending when
    [tr] begins). *)
Fixpoint paced (d : Z) (delayed : bool) (tr : list event) : bool :=
  match tr with
  | [] => true
  | EvDelay ms :: tr' => (ms =? d) && paced d true tr'
  | EvRead _ :: tr' => delayed && paced d false tr'
  | _ :: tr' => paced d delayed tr'
  end.

(** The world after the events [tr]. *)
Definition logged (tr : list event) (w : world) : world :=
  {| done := done w; nintr := nintr w; nread := nread w; nok := nok w;
     trace := trace w ++ tr |}.

(** The options that the option string "b:s:y:a:m:vh" gives a case of their
    own; 'h' shares the default case. *)
Definition known_option (opt : ascii) : bool :=
  Ascii.eqb opt "b" || Ascii.eqb opt "s" || Ascii.eqb opt "y"
  || Ascii.eqb opt "a" || Ascii.eqb opt "m" || Ascii.eqb opt "v".

(** The argument of the last option [opt] of a command line. *)
Fixpoint last_arg (opt : ascii) (opts : list (ascii * string)) : option string :=
  match opts with
  | [] => None
  | (x, arg) :: rest =>
      match last_arg opt rest with
      | Some a => Some a
      | None => if Ascii.eqb x opt then Some arg else None
      end
  end.

(** [settled opts o o']: the configuration [o'] is [o] with, for every
    option that [opts] holds, the value of its last occurrence. *)
Definition num_or (arg : option string) (v : Z) : Z :=
  match arg with Some a => to_int (strtoul a) | None => v end.

Definition file_or (arg file : option string) : option string :=
  match arg with Some a => Some a | None => file end.

Definition settled (opts : list (ascii * string)) (o o' : options) : Prop :=
  i2c_bus o' = num_or (last_arg "b" opts) (i2c_bus o)
  /\ sample_rate o' = num_or (last_arg "s" opts) (sample_rate o)
  /\ yaw_mix_factor o' = num_or (last_arg "y" opts) (yaw_mix_factor o)
  /\ accel_cal_file o' = file_or (last_arg "a" opts) (accel_cal_file o)
  /\ mag_cal_file o' = file_or (last_arg "m" opts) (mag_cal_file o)
  /\ verbose o' = if existsb (fun x => Ascii.eqb x.1 "v") opts then 1
                  else verbose o.

(** Events that are only text on the terminal, and calls into the driver. *)
Definition is_diagnostic (ev : event) : bool :=
  match ev with EvPrintf _ | EvPerror _ => true | _ => false end.

Definition is_driver (ev : event) : bool :=
  match ev with
  | EvSetDebug _ | EvInit _ _ _ | EvSetAccelCal _ | EvSetMagCal _
  | EvRead _ | EvExit => true
  | _ => false
  end.

(** [dispatch_ok pending tr]: in [tr] every print comes after a read that
    returned 0 and was not printed yet, and every such read is printed
    before the next delay or read; [pending] says whether a sample waits to
    be printed when [tr] begins. *)
Fixpoint dispatch_ok (pending : bool) (tr : list event) : bool :=
  match tr with
  | [] => negb pending
  | EvRead r :: tr' => negb pending && dispatch_ok (r =? 0) tr'
  | EvPrintEuler :: tr' => pending && dispatch_ok false tr'
  | EvDelay _ :: tr' => negb pending && dispatch_ok false tr'
  | _ :: tr' => dispatch_ok pending tr'
  end.

(** [counter_ok n tr]: every message that [tr] logs carries the counter that
    is the number of messages published before it, [n] at the start, as an
    [int]. *)
Fixpoint counter_ok (n : Z) (tr : list event) : bool :=
  match tr with
  | [] => true
  | EvRosInfo c :: tr' => (c =? to_int n) && counter_ok n tr'
  | EvPublish _ :: tr' => counter_ok (n + 1) tr'
  | _ :: tr' => counter_ok n tr'
  end.

(** A configuration each of whose numbers is the default or within its
    bounds. *)
Definition checked (d : local_defaults) (o : options) : Prop :=
  (i2c_bus o = DEFAULT_I2C_BUS d \/ MIN_I2C_BUS d <= i2c_bus o <= MAX_I2C_BUS d)
  /\ (sample_rate o = DEFAULT_SAMPLE_RATE_HZ d
      \/ MIN_SAMPLE_RATE d <= sample_rate o <= MAX_SAMPLE_RATE d)
  /\ (yaw_mix_factor o = DEFAULT_YAW_MIX_FACTOR d
      \/ 0 <= yaw_mix_factor o <= 100)
  /\ (verbose o = 0 \/ verbose o = 1).

(** An option of the command line that the option loop lets pass: a known
    one, and for b, s and y the [int] that its argument gives is within the
    bounds. *)
Definition valid_option (d : local_defaults) (x : ascii * string) : bool :=
  let v := to_int (strtoul x.2) in
  if Ascii.eqb x.1 "b" then (MIN_I2C_BUS d <=? v) && (v <=? MAX_I2C_BUS d)
  else if Ascii.eqb x.1 "s" then
    (MIN_SAMPLE_RATE d <=? v) && (v <=? MAX_SAMPLE_RATE d)
  else if Ascii.eqb x.1 "y" then (0 <=? v) && (v <=? 100)
  else known_option x.1.

(** Constants that agree with the help text (bus 1, rate 10 within 2-50,
    yaw mix factor 4); the bounds of the bus number are not in the text and
    are chosen here. *)
Definition help_text_defaults : local_defaults :=
  {| DEFAULT_I2C_BUS := 1; DEFAULT_SAMPLE_RATE_HZ := 10;
     DEFAULT_YAW_MIX_FACTOR := 4; MIN_I2C_BUS := 0; MAX_I2C_BUS := 7;
     MIN_SAMPLE_RATE := 2; MAX_SAMPLE_RATE := 50 |}.

(** A command line environment in which errno is never EINVAL and [malloc]
    succeeds. *)
Definition quiet_cli : cli_env :=
  {| einval := fun _ => false; malloc_ok := fun _ => true |}.

(** An environment in which nothing fails and no signal arrives, over the
    files [m] and the read results [reads]. *)
Definition quiet_env (m : gmap string string) (reads : nat -> Z) : env :=
  {| fs := m; sigaction_ret := 0; init_ret := 0; read_ret := reads;
     ros_ok := fun _ => true; sigint_at := fun _ => false |}.

(** An environment like [quiet_env] with no files, in which ros::ok() holds
    for the first [cycles] tests and SIGINT arrives at the interruption
    points that [sig] selects. *)
Definition run_env (reads : nat -> Z) (cycles : nat) (sig : nat -> bool) : env :=
  {| fs := ∅; sigaction_ret := 0; init_ret := 0; read_ret := reads;
     ros_ok := fun k => (k <? cycles)%nat; sigint_at := sig |}.

(** The options of a run without arguments but for the sample rate: bus 1,
    yaw mix factor 4, default calibration files. *)
Definition default_options (rate : Z) : options :=
  {| i2c_bus := 1; sample_rate := rate; yaw_mix_factor := 4; verbose := 0;
     mag_cal_file := None; accel_cal_file := None |}.

(** The world once the driver is configured, and the world when the
    sampling starts, after the two [set_cal] calls. *)
Definition configured (o : options) (w : world) : world :=
  log (EvInit (i2c_bus o) (sample_rate o) (yaw_mix_factor o))
    (log (EvSetDebug (verbose o)) w).

Definition started (o : options) (ev1 ev2 : event) (w : world) : world :=
  log ev2 (log ev1 (configured o w)).

(** The calibration file of the scenario: 100, 300, -50, 50, 10, 20. *)
Definition scenario_file : string :=
  "100" +:+ nl +:+ "300" +:+ nl +:+ "-50" +:+ nl +:+ "50" +:+ nl +:+
  "10" +:+ nl +:+ "20" +:+ nl.

(** ** Machine integers: facts *)

Lemma swrap_id w x :
  0 < w -> - 2 ^ (w - 1) <= x < 2 ^ (w - 1) -> swrap w x = x.
Proof.
  intros Hw Hx. unfold swrap.
  replace (2 ^ w) with (2 * 2 ^ (w - 1)).
  - rewrite Z.mod_small; lia.
  - rewrite <- Z.pow_succ_r by lia. f_equal. lia.
Qed.

Lemma swrap_range w x : 0 < w -> - 2 ^ (w - 1) <= swrap w x < 2 ^ (w - 1).
Proof.
  intros Hw. unfold swrap.
  replace (2 ^ w) with (2 * 2 ^ (w - 1)).
  - assert (0 < 2 ^ (w - 1)) by (apply Z.pow_pos_nonneg; lia).
    pose proof (Z.mod_pos_bound (x + 2 ^ (w - 1)) (2 * 2 ^ (w - 1))). lia.
  - rewrite <- Z.pow_succ_r by lia. f_equal. lia.
Qed.

Lemma to_short_id x : in_short x -> to_short x = x.
Proof.
  unfold in_short, SHRT_MIN, SHRT_MAX. intros H. apply swrap_id; [lia|].
  change (2 ^ (16 - 1)) with 32768. lia.
Qed.

Lemma to_int_id x : in_int x -> to_int x = x.
Proof.
  unfold in_int, INT_MIN, INT_MAX. intros H. apply swrap_id; [lia|].
  change (2 ^ (32 - 1)) with 2147483648. lia.
Qed.

Lemma to_long_id x : LONG_MIN <= x <= LONG_MAX -> to_long x = x.
Proof.
  unfold LONG_MIN, LONG_MAX. intros H. apply swrap_id; [lia|].
  change (2 ^ (64 - 1)) with 9223372036854775808. lia.
Qed.

Lemma to_short_in_short x : in_short (to_short x).
Proof.
  pose proof (swrap_range 16 x ltac:(lia)) as H.
  change (2 ^ (16 - 1)) with 32768 in H.
  unfold in_short, to_short, SHRT_MIN, SHRT_MAX. lia.
Qed.

Lemma to_int_in_int x : in_int (to_int x).
Proof.
  pose proof (swrap_range 32 x ltac:(lia)) as H.
  change (2 ^ (32 - 1)) with 2147483648 in H.
  unfold in_int, to_int, INT_MIN, INT_MAX. lia.
Qed.

(** Narrowing is a congruence modulo 2^16: an operand narrowed beforehand
    does not change the narrowed difference. *)
Lemma to_short_sub_to_short a b : to_short (a - to_short b) = to_short (a - b).
Proof.
  unfold to_short, swrap.
  change (2 ^ (16 - 1)) with 32768. change (2 ^ 16) with 65536. f_equal.
  replace (a - ((b + 32768) mod 65536 - 32768) + 32768)
    with ((a + 65536) - (b + 32768) mod 65536) by lia.
  rewrite Zminus_mod_idemp_r. f_equal. lia.
Qed.

Lemma atoi_in_int s : in_int (atoi s).
Proof. apply to_int_in_int. Qed.

(** [atoi] on lines as [fgets] delivers them: a number with its newline, a
    number after blanks and a sign, and two lines that give 0, one of text
    and one with the digit 0. *)
Example atoi_lines :
  atoi ("300" +:+ nl) = 300 /\ atoi ("  -50" +:+ nl) = -50
  /\ atoi ("abc" +:+ nl) = 0 /\ atoi ("0" +:+ nl) = 0.
Proof. repeat split; reflexivity. Qed.

(** [fgets(buff, 20, f)] stops after the newline, or after 19 characters. *)
Example fgets_lines :
  fgets 20 ("100" +:+ nl +:+ "300" +:+ nl) = Some ("100" +:+ nl, "300" +:+ nl)
  /\ fgets 20 "1234567890123456789012" = Some ("1234567890123456789", "012")
  /\ fgets 20 EmptyString = None.
Proof. repeat split; reflexivity. Qed.

(** ** Calibration loading: facts *)

(** Six readable non-zero lines: the loop runs to [i = 6] and fills [val]
    with their values, silently. *)
Lemma read_vals_ok n : forall i f val e w,
  length val = (i + n)%nat ->
  length (lines n f) = n ->
  Forall (fun v => v <> 0) (atoi <$> lines n f) ->
  Imu.read_vals n i f val e w
  = (Ret ((i + n)%nat, take i val ++ (atoi <$> lines n f)), w).
Proof.
  induction n as [|n IH]; intros i f val e w Hlen Hn Hnz; simpl in *.
  - unfold ret. rewrite Nat.add_0_r, app_nil_r, take_ge by lia. reflexivity.
  - destruct (fgets 20 f) as [[buff f']|]; [|discriminate].
    simpl in *. inversion Hnz as [|? ? Hv Hrest]; subst.
    rewrite list_lookup_total_insert_eq by lia.
    destruct (Z.eqb_spec (atoi buff) 0) as [|_]; [contradiction|].
    rewrite IH; [|rewrite length_insert; lia|lia|assumption].
    rewrite (take_S_r _ _ (atoi buff)) by (apply list_lookup_insert_eq; lia).
    rewrite take_insert_ge by lia. rewrite <- app_assoc. simpl.
    repeat f_equal. lia.
Qed.

(** A missing line or a zero among the six: the loop breaks early with one
    diagnostic and [i] short of its bound. *)
Lemma read_vals_break n : forall i f val e w,
  length val = (i + n)%nat ->
  (length (lines n f) < n)%nat \/ 0 ∈ (atoi <$> lines n f) ->
  exists i' val' msg,
    Imu.read_vals n i f val e w = (Ret (i', val'), log (EvPrintf msg) w)
    /\ (i' < i + n)%nat.
Proof.
  induction n as [|n IH]; intros i f val e w Hlen H; simpl in *.
  - destruct H as [H|H]; [lia|]. apply elem_of_nil in H. contradiction.
  - destruct (fgets 20 f) as [[buff f']|].
    + simpl in *. rewrite list_lookup_total_insert_eq by lia.
      destruct (Z.eqb_spec (atoi buff) 0) as [Hz|Hz].
      * eexists _, _, _. split; [reflexivity|lia].
      * destruct (IH (S i) f' (<[i:=atoi buff]> val) e w) as (i' & val' & msg & Hr & Hi).
        { rewrite length_insert. lia. }
        { destruct H as [H|H]; [left; lia|right].
          apply elem_of_cons in H. destruct H as [H|H]; [congruence|assumption]. }
        eexists _, _, _. split; [exact Hr|lia].
    + eexists _, _, _. split; [reflexivity|lia].
Qed.


Lemma cal_values_in_int f : Forall in_int (cal_values f).
Proof.
  unfold cal_values. apply Forall_fmap, Forall_forall. intros l _.
  apply atoi_in_int.
Qed.

(** [long] arithmetic on values that [atoi] delivered does not overflow. *)
Lemma offset_exact a b :
  in_int a -> in_int b -> long_div (long_add a b) 2 = Z.quot (a + b) 2.
Proof.
  unfold in_int, INT_MIN, INT_MAX, long_div, long_add. intros Ha Hb.
  rewrite (to_long_id (a + b)) by (unfold LONG_MIN, LONG_MAX; lia).
  apply to_long_id. unfold LONG_MIN, LONG_MAX.
  pose proof (Z.quot_rem' (a + b) 2).
  pose proof (Z.rem_bound_abs (a + b) 2 ltac:(lia)). lia.
Qed.

Lemma range_exact a q :
  in_int a -> long_sub a (to_short q) = a - to_short q.
Proof.
  unfold in_int, INT_MIN, INT_MAX, long_sub. intros Ha.
  pose proof (to_short_in_short q) as Hq.
  unfold in_short, SHRT_MIN, SHRT_MAX in Hq.
  apply to_long_id. unfold LONG_MIN, LONG_MAX. lia.
Qed.

(** What [set_cal] does with an open stream of six non-zero values: the
    setter receives the formula's entry narrowed to [short], and 0 is
    returned. *)
Lemma set_cal_opened_ok mag f v0 v1 v2 v3 v4 v5 e w :
  cal_values f = [v0; v1; v2; v3; v4; v5] ->
  0 ∉ cal_values f ->
  Imu.set_cal_opened mag f e w
  = (Ret 0, log (setter mag (narrow_cal (formula_cal v0 v1 v2 v3 v4 v5))) w).
Proof.
  intros Hv Hnz. unfold Imu.set_cal_opened, bind.
  pose proof (cal_values_in_int f) as Hint. rewrite Hv in Hint.
  unfold cal_values, cal_lines in *.
  rewrite read_vals_ok.
  - rewrite Hv. cbn [fst snd take replicate app Nat.add Nat.eqb negb].
    repeat match goal with
           | H : Forall _ (_ :: _) |- _ => inversion H; clear H; subst
           end.
    change ([v0; v1; v2; v3; v4; v5] !!! 0%nat) with v0.
    change ([v0; v1; v2; v3; v4; v5] !!! 1%nat) with v1.
    change ([v0; v1; v2; v3; v4; v5] !!! 2%nat) with v2.
    change ([v0; v1; v2; v3; v4; v5] !!! 3%nat) with v3.
    change ([v0; v1; v2; v3; v4; v5] !!! 4%nat) with v4.
    change ([v0; v1; v2; v3; v4; v5] !!! 5%nat) with v5.
    rewrite !offset_exact, !range_exact, !to_short_sub_to_short by assumption.
    unfold setter, emit, ret. destruct (negb (mag =? 0)); reflexivity.
  - reflexivity.
  - apply (f_equal length) in Hv. rewrite length_fmap in Hv. exact Hv.
  - apply Forall_forall. intros v Hin ->. contradiction.
Qed.

(** With a line missing or a zero value, -1 is returned after one
    diagnostic and no setter is called. *)
Lemma set_cal_opened_break mag f e w :
  (length (cal_lines f) < 6)%nat \/ 0 ∈ cal_values f ->
  exists msg, Imu.set_cal_opened mag f e w = (Ret (-1), log (EvPrintf msg) w).
Proof.
  intros H. unfold Imu.set_cal_opened, bind.
  destruct (read_vals_break 6 0 f (replicate 6 0) e w) as (i & val & msg & Hr & Hi);
    [reflexivity|exact H|].
  rewrite Hr. exists msg. cbn [fst snd].
  destruct (Nat.eqb_spec i 6) as [->|_]; [lia|]. reflexivity.
Qed.

(** [set_cal] runs on the stream that [cal_stream] names. *)
Lemma set_cal_stream mag cal_file f e w :
  cal_stream e mag cal_file = Some f ->
  Imu.set_cal mag cal_file e w = Imu.set_cal_opened mag f e w.
Proof.
  unfold cal_stream, default_cal_file, Imu.set_cal, bind, fopen.
  destruct cal_file as [path|]; [|destruct (negb (mag =? 0))];
    intros ->; reflexivity.
Qed.

(** The two copies of [set_cal] are the same function. *)
Lemma set_cal_same mag cal_file e w :
  Node.set_cal mag cal_file e w = Imu.set_cal mag cal_file e w.
Proof. reflexivity. Qed.


Lemma to_short_congruent x : to_short x mod 2 ^ 16 = x mod 2 ^ 16.
Proof.
  unfold to_short, swrap. change (2 ^ (16 - 1)) with 32768.
  change (2 ^ 16) with 65536.
  rewrite Zminus_mod_idemp_l. f_equal. lia.
Qed.

Lemma narrow_fits c : fits_short c -> narrow_cal c = c.
Proof.
  destruct c as [o r]. unfold fits_short, narrow_cal. cbn [offset range].
  intros H. apply Forall_app in H as [Ho Hr]. f_equal.
  - induction Ho as [|x l Hx _ IH]; [reflexivity|].
    rewrite fmap_cons. f_equal; [apply to_short_id, Hx|exact IH].
  - induction Hr as [|x l Hx _ IH]; [reflexivity|].
    rewrite fmap_cons. f_equal; [apply to_short_id, Hx|exact IH].
Qed.

(** ** Calibration loading: the claims *)

(** C1 (as amended).  A load that reads six non-zero values v0..v5 hands
    the driver setter exactly offset_i = (v_2i + v_2i+1) / 2 and
    range_i = v_2i+1 - offset_i, with C's truncating division, provided
    these six numbers lie in the range of [short]; the load returns 0.  Both
    copies of [set_cal] do so. *)
Theorem C1_formula_exact_within_short e w mag cal_file f v0 v1 v2 v3 v4 v5 :
  cal_stream e mag cal_file = Some f ->
  cal_values f = [v0; v1; v2; v3; v4; v5] ->
  0 ∉ cal_values f ->
  fits_short (formula_cal v0 v1 v2 v3 v4 v5) ->
  Imu.set_cal mag cal_file e w
  = (Ret 0, log (setter mag (formula_cal v0 v1 v2 v3 v4 v5)) w)
  /\ Node.set_cal mag cal_file e w
     = (Ret 0, log (setter mag (formula_cal v0 v1 v2 v3 v4 v5)) w).
Proof.
  intros Hs Hv Hnz Hfit.
  assert (Imu.set_cal mag cal_file e w
          = (Ret 0, log (setter mag (formula_cal v0 v1 v2 v3 v4 v5)) w)) as HI.
  { rewrite (set_cal_stream _ _ _ _ _ Hs).
    rewrite (set_cal_opened_ok _ _ _ _ _ _ _ _ _ _ Hv Hnz).
    rewrite (narrow_fits _ Hfit). reflexivity. }
  split; [exact HI|]. rewrite set_cal_same. exact HI.
Qed.

(** The scenario of C1: the lines 100, 300, -50, 50, 10, 20 in the default
    accelerometer file give offset (200, 0, 15) and range (100, 50, 5). *)
Lemma C1_scenario :
  let e := quiet_env {[ "./accelcal.txt" := scenario_file ]} (fun _ => 0) in
  let cal := {| offset := [200; 0; 15]; range := [100; 50; 5] |} in
  cal_values scenario_file = [100; 300; -50; 50; 10; 20]
  /\ Imu.set_cal 0 None e world0 = (Ret 0, log (EvSetAccelCal cal) world0)
  /\ Node.set_cal 0 None e world0 = (Ret 0, log (EvSetAccelCal cal) world0).
Proof.
  split; [reflexivity|].
  apply (C1_formula_exact_within_short _ world0 0 None scenario_file
           100 300 (-50) 50 10 20).
  - reflexivity.
  - reflexivity.
  - intros H. repeat (apply elem_of_cons in H as [H|H]; [discriminate H|]).
    apply elem_of_nil in H. exact H.
  - unfold fits_short. cbn [formula_cal offset range app].
    repeat (apply Forall_cons_2; [vm_compute; split; discriminate|]).
    apply Forall_nil_2.
Defined.

(** C1 as stated fails where a result leaves the range of [short]: from the
    lines 100, 70000, -50, 50, 10, 20 the load succeeds, but the X offset
    handed to the driver is -30486 and not (100 + 70000) / 2 = 35050, and
    the X range is -30586 and not 70000 - 35050. *)
Lemma C1_counterexample :
  let f := "100" +:+ nl +:+ "70000" +:+ nl +:+ "-50" +:+ nl +:+ "50" +:+ nl +:+
           "10" +:+ nl +:+ "20" +:+ nl in
  let e := quiet_env {[ "./accelcal.txt" := f ]} (fun _ => 0) in
  cal_values f = [100; 70000; -50; 50; 10; 20]
  /\ Imu.set_cal 0 None e world0
     = (Ret 0, log (EvSetAccelCal {| offset := [-30486; 0; 15];
                                     range := [-30586; 50; 5] |}) world0)
  /\ Z.quot (100 + 70000) 2 = 35050
  /\ formula_cal 100 70000 (-50) 50 10 20
     <> {| offset := [-30486; 0; 15]; range := [-30586; 50; 5] |}.
Proof.
  repeat split; try reflexivity. discriminate.
Qed.

(** C5 (as amended).  When fewer than six pieces can be read from the
    calibration file by successive [fgets(buff, 20, f)] calls, or one of the
    pieces read, at most six, parses to zero (as every piece without a
    leading number does), [set_cal] returns -1 to its caller after one
    diagnostic: the process is not exited, whatever follows the call runs,
    and no driver setter is called.  Both copies of [set_cal] do so. *)
Theorem C5_short_or_zero_file_is_soft_error e w mag cal_file f :
  cal_stream e mag cal_file = Some f ->
  (length (cal_lines f) < 6)%nat \/ 0 ∈ cal_values f ->
  exists msg,
    Imu.set_cal mag cal_file e w = (Ret (-1), log (EvPrintf msg) w)
    /\ Node.set_cal mag cal_file e w = (Ret (-1), log (EvPrintf msg) w)
    /\ count is_setter (trace (log (EvPrintf msg) w)) = count is_setter (trace w)
    /\ forall (A : Type) (k : M A),
         (Imu.set_cal mag cal_file ;; k) e w = k e (log (EvPrintf msg) w).
Proof.
  intros Hs H.
  destruct (set_cal_opened_break mag f e w H) as [msg Hr]. exists msg.
  rewrite <- (set_cal_stream _ _ _ _ _ Hs) in Hr.
  split; [exact Hr|]. split; [rewrite set_cal_same; exact Hr|]. split.
  - unfold count, log. cbn [trace]. rewrite List.filter_app. cbn.
    rewrite app_nil_r. reflexivity.
  - intros A k. unfold bind. rewrite Hr. reflexivity.
Qed.

(** C5 at a file of two lines, and at a file whose third line is text. *)
Lemma C5_witness :
  let short_file := "100" +:+ nl +:+ "300" +:+ nl in
  let e := quiet_env {[ "cal.txt" := short_file ]} (fun _ => 0) in
  length (cal_lines short_file) = 2%nat
  /\ exists msg,
       Imu.set_cal 1 (Some "cal.txt") e world0
       = (Ret (-1), log (EvPrintf msg) world0)
       /\ Node.set_cal 1 (Some "cal.txt") e world0
          = (Ret (-1), log (EvPrintf msg) world0).
Proof.
  split; [reflexivity|].
  destruct (C5_short_or_zero_file_is_soft_error
              (quiet_env {[ "cal.txt" := "100" +:+ nl +:+ "300" +:+ nl ]} (fun _ => 0))
              world0 1 (Some "cal.txt") ("100" +:+ nl +:+ "300" +:+ nl))
    as (msg & H1 & H2 & _).
  - reflexivity.
  - left. simpl. lia.
  - exists msg. split; assumption.
Defined.

(** C5 as stated fails on lines that [set_cal] does not read as such.  The
    scenario file followed by a seventh line 0 holds a line that parses to
    zero, and the file of five lines whose first has 22 digits holds fewer
    than six lines; yet both loads return 0 and call the setter: the
    seventh line is never read, and the long line comes as the two pieces
    1234567890123456789 and 012. *)
Lemma C5_counterexample :
  let f := scenario_file +:+ "0" +:+ nl in
  let g := "1234567890123456789012" +:+ nl +:+ "300" +:+ nl +:+ "-50" +:+ nl +:+
           "50" +:+ nl +:+ "10" +:+ nl in
  (text_lines f = ["100"; "300"; "-50"; "50"; "10"; "20"; "0"]
   /\ 0 ∈ atoi <$> text_lines f
   /\ Imu.set_cal 0 (Some "cal.txt") (quiet_env {[ "cal.txt" := f ]} (fun _ => 0))
        world0
      = (Ret 0, log (EvSetAccelCal {| offset := [200; 0; 15];
                                      range := [100; 50; 5] |}) world0))
  /\ (length (text_lines g) = 5%nat
      /\ cal_values g = [2112454933; 12; 300; -50; 50; 10]
      /\ Imu.set_cal 0 (Some "cal.txt") (quiet_env {[ "cal.txt" := g ]} (fun _ => 0))
           world0
         = (Ret 0, log (EvSetAccelCal {| offset := [-16240; 125; 30];
                                         range := [16252; -175; -20] |}) world0)).
Proof.
  cbv zeta. split; (split; [reflexivity|]); (split; [|reflexivity]).
  - apply (list_elem_of_lookup_2 _ 6%nat). reflexivity.
  - reflexivity.
Qed.

(** C9.  The calibration loader of imu.c and that of mpu9150_node.cpp agree
    on every input: same return value, same events in the same order, hence
    the same setter called with the same entry. *)
Theorem C9_set_cal_copies_agree mag cal_file e w :
  Node.set_cal mag cal_file e w = Imu.set_cal mag cal_file e w.
Proof.
  unfold Node.set_cal, Imu.set_cal.
  destruct cal_file as [path|]; [|destruct (negb (mag =? 0))]; reflexivity.
Qed.

(** C10.  Every load of six non-zero values v0..v5 succeeds and gives the
    driver setter the entry of the formula with each component narrowed to
    [short]: a number in [-32768, 32767] congruent to the formula's modulo
    2^16.  The values themselves are [int]s stored in [long]s.  Nothing is
    rejected for being out of range. *)
Theorem C10_entry_narrowed_to_short e w mag cal_file f v0 v1 v2 v3 v4 v5 :
  cal_stream e mag cal_file = Some f ->
  cal_values f = [v0; v1; v2; v3; v4; v5] ->
  0 ∉ cal_values f ->
  let exact := formula_cal v0 v1 v2 v3 v4 v5 in
  let given := narrow_cal exact in
  Imu.set_cal mag cal_file e w = (Ret 0, log (setter mag given) w)
  /\ Node.set_cal mag cal_file e w = (Ret 0, log (setter mag given) w)
  /\ Forall in_int [v0; v1; v2; v3; v4; v5]
  /\ Forall2 (fun g x => in_short g /\ g mod 2 ^ 16 = x mod 2 ^ 16)
       (offset given ++ range given) (offset exact ++ range exact).
Proof.
  intros Hs Hv Hnz exact given.
  assert (Imu.set_cal mag cal_file e w = (Ret 0, log (setter mag given) w)) as HI.
  { rewrite (set_cal_stream _ _ _ _ _ Hs).
    apply (set_cal_opened_ok _ _ _ _ _ _ _ _ _ _ Hv Hnz). }
  split; [exact HI|]. split; [rewrite set_cal_same; exact HI|]. split.
  - rewrite <- Hv. apply cal_values_in_int.
  - subst given exact. cbn [formula_cal narrow_cal offset range fmap list_fmap app].
    repeat (constructor; [split; [apply to_short_in_short|apply to_short_congruent]|]).
    constructor.
Qed.

(** C10 where the X offset and range leave the range of [short]: the load
    returns 0 and the setter gets the truncated numbers. *)
Lemma C10_witness :
  let f := "100" +:+ nl +:+ "70000" +:+ nl +:+ "-50" +:+ nl +:+ "50" +:+ nl +:+
           "10" +:+ nl +:+ "20" +:+ nl in
  let e := quiet_env {[ "./magcal.txt" := f ]} (fun _ => 0) in
  formula_cal 100 70000 (-50) 50 10 20
  = {| offset := [35050; 0; 15]; range := [34950; 50; 5] |}
  /\ Imu.set_cal 1 None e world0
     = (Ret 0, log (EvSetMagCal {| offset := [-30486; 0; 15];
                                   range := [-30586; 50; 5] |}) world0).
Proof.
  split; [reflexivity|].
  refine (proj1 (C10_entry_narrowed_to_short _ world0 1 None _
                   100 70000 (-50) 50 10 20 _ _ _)).
  - reflexivity.
  - reflexivity.
  - intros H. repeat (apply elem_of_cons in H as [H|H]; [discriminate H|]).
    apply elem_of_nil in H. exact H.
Defined.


(** ** The inter-sample delay *)

Lemma quotient_bounds rate :
  1 <= rate <= 500 -> Z.quot 1000 rate = 1000 / rate /\ 2 <= 1000 / rate <= 1000.
Proof.
  intros H. split; [apply Z.quot_div_nonneg; lia|]. split.
  - apply Z.div_le_lower_bound; lia.
  - apply Z.div_le_upper_bound; lia.
Qed.

(** Up to 500 Hz neither front end's arithmetic wraps. *)
Lemma imu_loop_delay_exact rate :
  1 <= rate <= 500 -> Imu.loop_delay_of rate = 1000 / rate - 2.
Proof.
  intros H. destruct (quotient_bounds rate H) as [Hquot Hq].
  unfold Imu.loop_delay_of, to_ulong, to_uint, wrap. rewrite Hquot.
  change (2 ^ 32) with 4294967296. change (2 ^ 64) with 18446744073709551616.
  rewrite (Z.mod_small (1000 / rate)) by lia.
  rewrite (Z.mod_small (1000 / rate - 2)) by lia.
  apply Z.mod_small. lia.
Qed.

Lemma node_loop_delay_exact rate :
  1 <= rate <= 500 -> Node.loop_delay_of rate = 1000 / rate - 2.
Proof.
  intros H. destruct (quotient_bounds rate H) as [Hquot Hq].
  unfold Node.loop_delay_of, to_ulong, wrap. rewrite Hquot.
  rewrite (to_int_id (1000 / rate)) by (unfold in_int, INT_MIN, INT_MAX; lia).
  rewrite (to_int_id (1000 / rate - 2)) by (unfold in_int, INT_MIN, INT_MAX; lia).
  change (2 ^ 64) with 18446744073709551616.
  apply Z.mod_small. lia.
Qed.

(** Above 500 Hz the unsigned subtraction of imu.c wraps around; nothing
    clamps the delay at zero there. *)
Example imu_loop_delay_501 : Imu.loop_delay_of 501 = 4294967295.
Proof. reflexivity. Qed.

(** C4.  For a sample rate in [2, 50] the delay that [read_loop] computes is
    max(0, floor(1000 / rate) - 2); it is not negative, it does not
    increase when the rate increases within [2, 50], and it is 98 at 10 Hz.
    The publisher's [main] computes the same number. *)
Theorem C4_delay_ms rate :
  2 <= rate <= 50 ->
  Imu.loop_delay_of rate = Z.max 0 (1000 / rate - 2)
  /\ 0 <= Imu.loop_delay_of rate
  /\ (forall rate', rate <= rate' <= 50 ->
        Imu.loop_delay_of rate' <= Imu.loop_delay_of rate)
  /\ Imu.loop_delay_of 10 = 98
  /\ Node.loop_delay_of rate = Imu.loop_delay_of rate.
Proof.
  intros H. rewrite node_loop_delay_exact, imu_loop_delay_exact by lia.
  destruct (quotient_bounds rate ltac:(lia)) as [_ Hq].
  repeat split; try lia.
  intros rate' H'. rewrite imu_loop_delay_exact by lia.
  assert (1000 / rate' <= 1000 / rate) by (apply Z.div_le_compat_l; lia).
  lia.
Qed.

(** C4 at 10 Hz. *)
Lemma C4_witness :
  Imu.loop_delay_of 10 = Z.max 0 (1000 / 10 - 2) /\ Imu.loop_delay_of 10 = 98.
Proof.
  destruct (C4_delay_ms 10 ltac:(lia)) as (H1 & _ & _ & H2 & _).
  split; [exact H1|exact H2].
Defined.


(** ** Calibration loading: it always returns *)

Lemma lines_length n : forall f, (length (lines n f) <= n)%nat.
Proof.
  induction n as [|n IH]; intros f; simpl; [lia|].
  destruct (fgets 20 f) as [[buff f']|]; simpl; [|lia].
  specialize (IH f'). lia.
Qed.

Lemma set_cal_opened_total mag f e w :
  exists r ev,
    Imu.set_cal_opened mag f e w = (Ret r, log ev w) /\ is_cal_event ev = true.
Proof.
  destruct (decide ((length (cal_lines f) < 6)%nat \/ 0 ∈ cal_values f)) as [H|H].
  - destruct (set_cal_opened_break mag f e w H) as [msg Hr].
    exists (-1), (EvPrintf msg). split; [exact Hr|reflexivity].
  - assert (~ (length (cal_lines f) < 6)%nat) as Hlen by tauto.
    assert (0 ∉ cal_values f) as Hnz by tauto. pose proof (lines_length 6 f) as Hle.
    assert (length (cal_values f) = 6%nat) as Hsix.
    { unfold cal_values, cal_lines in *. rewrite length_fmap. lia. }
    destruct (cal_values f) as [|v0 [|v1 [|v2 [|v3 [|v4 [|v5 [|]]]]]]] eqn:Hv;
      try discriminate Hsix.
    exists 0, (setter mag (narrow_cal (formula_cal v0 v1 v2 v3 v4 v5))).
    split.
    + apply set_cal_opened_ok; [exact Hv|rewrite Hv; exact Hnz].
    + unfold setter. destruct (negb (mag =? 0)); reflexivity.
Qed.

(** Every call of [set_cal] returns to its caller, having added exactly one
    event: a setter call or a diagnostic. *)
Lemma set_cal_total mag cal_file e w :
  exists r ev,
    Imu.set_cal mag cal_file e w = (Ret r, log ev w) /\ is_cal_event ev = true.
Proof.
  destruct (cal_stream e mag cal_file) as [f|] eqn:Hs.
  - rewrite (set_cal_stream _ _ _ _ _ Hs). apply set_cal_opened_total.
  - unfold cal_stream, default_cal_file in Hs.
    unfold Imu.set_cal, bind, fopen, perror, printf, emit, ret.
    destruct cal_file as [path|]; [|destruct (negb (mag =? 0))];
      rewrite Hs; eexists _, _; split; reflexivity.
Qed.




(** ** The sampling loops: facts *)

(** Case analysis on what the environment decides along one iteration. *)
Ltac oracle :=
  match goal with
  | |- context [sigint_at ?e ?k] => destruct (sigint_at e k) eqn:?
  | |- context [ros_ok ?e ?k] => destruct (ros_ok e k) eqn:?
  | |- context [read_ret ?e ?k =? 0] => destruct (read_ret e k =? 0) eqn:?
  | |- context [done ?w =? 0] => destruct (done w =? 0) eqn:?
  end.

Ltac run_iteration :=
  cbn [Imu.while_not_done Node.while_ros_ok];
  unfold Imu.loop_body, Node.loop_body;
  unfold bind, intr, get_done, ret, sigint_handler, mpu9150_read,
    ros_ok_call, print_fused_euler_angles, linux_delay_ms, printf,
    mpu9150_exit, emit, log;
  cbn; repeat (oracle; cbn).

(** Arithmetic on counts of events, after one iteration has been run. *)
Ltac count_events :=
  unfold count in *; cbn in *;
  repeat match goal with
         | H : (_ =? 0) = _ |- _ => rewrite ?H in *; apply Z.eqb_eq in H
         | H : (_ =? 0) = _ |- _ => rewrite ?H in *; clear H
         end;
  cbn in *; rewrite ?Z.eqb_refl; try reflexivity; try assumption; try lia.

Lemma trace_extend (a b p t : list event) :
  b = a ++ p -> b ++ t = a ++ (p ++ t).
Proof. intros ->. symmetry. apply app_assoc. Qed.

(** The trace after one iteration and the rest of the run. *)
Ltac extend_trace :=
  eexists; split;
  [eapply trace_extend; cbn [trace]; rewrite <- ?app_assoc; reflexivity|].

Ltac end_trace :=
  eexists; split; [reflexivity || (symmetry; apply app_nil_r)|].

(** What a run of the console loop adds to the trace.  It ends by [Ret] or
    by [Timeout]; each read follows a delay of [d] ms made since the read
    before; there is one print per fresh sample, one delay per read and no
    driver shutdown; after the first SIGINT comes at most one read, and none
    if [done] was set on entry. *)
Lemma imu_loop_trace d e fuel : forall w,
  exists tr,
    trace (Imu.while_not_done fuel d e w).2 = trace w ++ tr
    /\ ((Imu.while_not_done fuel d e w).1 = Ret tt
        \/ (Imu.while_not_done fuel d e w).1 = Timeout)
    /\ paced d true tr = true
    /\ count is_print tr = count is_fresh_read tr
    /\ count is_delay tr = count is_read tr
    /\ count is_shutdown tr = 0%nat
    /\ (count is_read (after_sigint tr) <= 1)%nat
    /\ (done w <> 0 -> count is_read tr = 0%nat).
Proof.
  induction fuel as [|fuel IH]; intros w.
  - exists []. cbn. rewrite app_nil_r. repeat split; auto.
  - run_iteration;
      try (match goal with
           | |- context [Imu.while_not_done _ _ _ ?w1] =>
               destruct (IH w1) as (tr & -> & Hout & Hp & Hc1 & Hc2 & Hc3 & Ha & Hd)
           end;
           extend_trace; split; [exact Hout|]; repeat split; count_events);
      (end_trace; repeat split; auto; count_events).
Qed.


(** Once [done] is set the console loop leaves at its next test. *)
Lemma imu_loop_done_returns d e fuel w :
  (1 <= fuel)%nat -> done w <> 0 -> (Imu.while_not_done fuel d e w).1 = Ret tt.
Proof.
  intros Hf Hd. destruct fuel as [|fuel]; [lia|].
  apply Z.eqb_neq in Hd. run_iteration; congruence.
Qed.

(** The console loop terminates: a SIGINT delivered at interruption point
    [k] ends it, at the latest at the loop test that follows. *)
Lemma imu_loop_terminates d e k fuel : forall w,
  sigint_at e k = true ->
  (nintr w <= k < nintr w + fuel)%nat ->
  (Imu.while_not_done fuel d e w).1 = Ret tt.
Proof.
  induction fuel as [|fuel IH]; intros w Hk Hr; [lia|].
  destruct (Nat.eq_dec k (nintr w)) as [->|Hne].
  - run_iteration; try congruence; reflexivity.
  - assert (1 <= fuel)%nat as Hf by lia.
    destruct (Z.eq_dec (done w) 0) as [Hd|Hd];
      [|apply imu_loop_done_returns; [lia|exact Hd]].
    run_iteration; try reflexivity;
      try (match goal with
           | H : (done _ =? 0) = false |- _ => apply Z.eqb_neq in H; contradiction
           end);
      try (apply (imu_loop_done_returns d e fuel _ Hf); cbn; lia);
      apply (IH _ Hk); cbn;
      repeat match goal with
             | H : sigint_at _ ?j = false |- _ =>
                 assert (k <> j) by (intros ->; congruence); clear H
             end; lia.
Qed.

(** What a run of the publisher's loop adds to the trace.  It ends by [Ret]
    or by [Timeout]; there is one publish and one rate sleep per read,
    whatever was read; there is no [linux_delay_ms], no console print and no
    driver shutdown. *)
Lemma node_loop_trace e fuel : forall c w,
  exists tr,
    trace (Node.while_ros_ok fuel c e w).2 = trace w ++ tr
    /\ ((Node.while_ros_ok fuel c e w).1 = Ret tt
        \/ (Node.while_ros_ok fuel c e w).1 = Timeout)
    /\ count is_publish tr = count is_read tr
    /\ count is_rate_sleep tr = count is_read tr
    /\ count is_delay tr = 0%nat
    /\ count is_print tr = 0%nat
    /\ count is_shutdown tr = 0%nat.
Proof.
  induction fuel as [|fuel IH]; intros c w.
  - exists []. cbn. rewrite app_nil_r. repeat split; auto.
  - run_iteration;
      try (match goal with
           | |- context [Node.while_ros_ok _ ?c1 _ ?w1] =>
               destruct (IH c1 w1) as (tr & -> & Hout & Hc1 & Hc2 & Hc3 & Hc4 & Hc5)
           end;
           extend_trace; split; [exact Hout|]; repeat split; count_events);
      (end_trace; repeat split; auto; count_events).
Qed.

(** The publisher's loop does not look at [done]: while ros::ok() holds it
    goes on reading, SIGINT or not. *)
Lemma node_loop_runs_on e fuel :
  (forall k, ros_ok e k = true) ->
  forall c w,
    (Node.while_ros_ok fuel c e w).1 = Timeout
    /\ exists tr,
         trace (Node.while_ros_ok fuel c e w).2 = trace w ++ tr
         /\ count is_read tr = fuel.
Proof.
  intros Hok. induction fuel as [|fuel IH]; intros c w.
  - split; [reflexivity|]. exists []. cbn. rewrite app_nil_r. split; reflexivity.
  - run_iteration;
      try (match goal with
           | H : ros_ok _ _ = false |- _ => rewrite Hok in H; discriminate H
           end);
      match goal with
      | |- context [Node.while_ros_ok _ ?c1 _ ?w1] =>
          destruct (IH c1 w1) as (Hout & tr & -> & Hc)
      end; (split; [exact Hout|]); extend_trace; count_events.
Qed.


(** *** Traces in sequence *)

Lemma count_app p a b : count p (a ++ b) = (count p a + count p b)%nat.
Proof. unfold count. rewrite List.filter_app, length_app. reflexivity. Qed.

Lemma count_cons p ev tr :
  count p (ev :: tr) = ((if p ev then 1 else 0) + count p tr)%nat.
Proof. unfold count. cbn. destruct (p ev); reflexivity. Qed.

Lemma count_nil p : count p [] = 0%nat.
Proof. reflexivity. Qed.

(** Counts over a trace given as a prefix, a named part and a suffix. *)
Ltac count_parts :=
  repeat first [rewrite count_cons|rewrite count_app|rewrite count_nil];
  cbn [is_read is_fresh_read is_print is_publish is_shutdown is_delay
       is_rate_sleep is_sigint is_setter is_cal_event];
  lia.

Lemma paced_app d a : forall delayed b,
  paced d delayed a = true ->
  count is_read b = 0%nat ->
  count is_delay b = 0%nat ->
  paced d delayed (a ++ b) = true.
Proof.
  induction a as [|ev a IH]; intros delayed b Ha Hr Hd.
  - cbn. clear Ha. revert delayed.
    induction b as [|ev b IHb]; intros delayed; [reflexivity|].
    destruct ev; unfold count in *; cbn in *; try discriminate; apply IHb; assumption.
  - destruct ev; cbn in *; auto.
    + apply andb_true_iff in Ha as [-> Ha]. cbn. auto.
    + apply andb_true_iff in Ha as [-> Ha]. cbn. auto.
Qed.

Lemma after_sigint_app a b :
  (count is_read (after_sigint (a ++ b))
   <= count is_read (after_sigint a) + count is_read b)%nat.
Proof.
  induction a as [|ev a IH]; cbn [after_sigint app].
  - induction b as [|ev b IHb]; cbn; [lia|].
    unfold count in *. destruct ev; cbn in *; lia.
  - destruct (is_sigint ev); [|exact IH].
    rewrite count_app. lia.
Qed.

(** *** [read_loop] *)

Lemma imu_read_loop_zero fuel e w : Imu.read_loop fuel 0 e w = (Ret tt, w).
Proof. reflexivity. Qed.

(** What [read_loop] adds to the trace at a rate other than 0: the first
    delay, then the loop, all reads paced by the one delay computed from the
    rate. *)
Lemma imu_read_loop_trace fuel rate e w :
  rate <> 0 ->
  exists tr,
    trace (Imu.read_loop fuel rate e w).2 = trace w ++ tr
    /\ ((Imu.read_loop fuel rate e w).1 = Ret tt
        \/ (Imu.read_loop fuel rate e w).1 = Timeout)
    /\ paced (Imu.loop_delay_of rate) false tr = true
    /\ count is_print tr = count is_fresh_read tr
    /\ count is_delay tr = S (count is_read tr)
    /\ count is_shutdown tr = 0%nat
    /\ (count is_read (after_sigint tr) <= 1)%nat.
Proof.
  intros Hrate. apply Z.eqb_neq in Hrate.
  unfold Imu.read_loop. rewrite Hrate.
  set (d := Imu.loop_delay_of rate).
  unfold bind, printf, linux_delay_ms, intr, sigint_handler, emit, log. cbn.
  destruct (sigint_at e (nintr w)); cbn;
    match goal with
    | |- context [Imu.while_not_done ?f ?d0 ?e0 ?w1] =>
        destruct (imu_loop_trace d0 e0 f w1)
          as (tr & Ht & Hout & Hp & Hc1 & Hc2 & Hc3 & Ha & Hd);
        revert Ht Hout Hd;
        destruct (Imu.while_not_done f d0 e0 w1) as [out w2]
    end;
    cbn; intros Ht [->| ->] Hd; cbn; rewrite Ht;
    try specialize (Hd ltac:(lia));
    (eexists; split; [rewrite <- ?app_assoc; reflexivity|]; split; [auto|]);
    cbn [app after_sigint is_sigint paced]; rewrite Z.eqb_refl; cbn [andb];
    rewrite ?app_nil_r;
    (split; [first [exact Hp|apply paced_app; [exact Hp|reflexivity|reflexivity]]|]);
    (split; [count_parts|]); (split; [count_parts|]); (split; [count_parts|]);
    first [count_parts
          |exact Ha
          |etransitivity; [apply after_sigint_app|]; count_parts].
Qed.


(** *** [main] *)

Lemma started_trace o ev1 ev2 w :
  trace (started o ev1 ev2 w)
  = trace w ++ [EvSetDebug (verbose o);
                EvInit (i2c_bus o) (sample_rate o) (yaw_mix_factor o); ev1; ev2].
Proof. unfold started, configured, log. cbn. rewrite <- !app_assoc. reflexivity. Qed.


(** With the handler installed and the driver initialised, the console
    [main] makes its two [set_cal] calls, whatever they return, then
    samples, shuts the driver down and returns 0. *)
Lemma imu_main_started fuel o e w :
  0 <= sigaction_ret e -> init_ret e = 0 ->
  exists r1 r2 ev1 ev2,
    Imu.set_cal 0 (accel_cal_file o) e (configured o w)
    = (Ret r1, log ev1 (configured o w))
    /\ Imu.set_cal 1 (mag_cal_file o) e (log ev1 (configured o w))
       = (Ret r2, started o ev1 ev2 w)
    /\ is_cal_event ev1 = true /\ is_cal_event ev2 = true
    /\ Imu.main fuel o e w
       = (Imu.read_loop fuel (to_uint (sample_rate o)) ;; mpu9150_exit ;; ret 0)
           e (started o ev1 ev2 w).
Proof.
  intros Hs Hi. apply Z.ltb_ge in Hs.
  unfold Imu.main, register_sig_handler, mpu9150_set_debug, mpu9150_init.
  unfold bind at 1. unfold bind at 1. unfold ask. rewrite Hs.
  unfold ret at 1. unfold bind at 1. unfold emit at 1.
  do 3 unfold bind at 1. unfold ask, emit at 1. unfold ret at 1.
  rewrite Hi. cbn [Z.eqb negb].
  set (w2 := log (EvInit _ _ _) _).
  destruct (set_cal_total 0 (accel_cal_file o) e w2) as (r1 & ev1 & H1 & Hev1).
  unfold bind at 1. rewrite H1.
  destruct (set_cal_total 1 (mag_cal_file o) e (log ev1 w2)) as (r2 & ev2 & H2 & Hev2).
  unfold bind at 1. rewrite H2.
  exists r1, r2, ev1, ev2. repeat split; assumption.
Qed.

(** The publisher's [main] likewise, up to the test of the sample rate. *)
Lemma node_main_started fuel o e w :
  0 <= sigaction_ret e -> init_ret e = 0 ->
  exists r1 r2 ev1 ev2,
    Imu.set_cal 0 (accel_cal_file o) e (configured o w)
    = (Ret r1, log ev1 (configured o w))
    /\ Imu.set_cal 1 (mag_cal_file o) e (log ev1 (configured o w))
       = (Ret r2, started o ev1 ev2 w)
    /\ is_cal_event ev1 = true /\ is_cal_event ev2 = true
    /\ Node.main fuel o e w
       = (if sample_rate o =? 0 then ret (-1)
          else
            printf (nl +:+ "Entering MPU read loop (ctrl-c to exit)" +:+ nl +:+ nl) ;;
            intr ;;
            linux_delay_ms (Node.loop_delay_of (sample_rate o)) ;;
            Node.while_ros_ok fuel 0 ;;
            ret 0)
           e (started o ev1 ev2 w).
Proof.
  intros Hs Hi. apply Z.ltb_ge in Hs.
  unfold Node.main, register_sig_handler, mpu9150_set_debug, mpu9150_init.
  change Node.set_cal with Imu.set_cal.
  unfold bind at 1. unfold bind at 1. unfold ask. rewrite Hs.
  unfold ret at 1. unfold bind at 1. unfold emit at 1.
  do 3 unfold bind at 1. unfold ask, emit at 1. unfold ret at 1.
  rewrite Hi. cbn [Z.eqb negb].
  set (w2 := log (EvInit _ _ _) _).
  destruct (set_cal_total 0 (accel_cal_file o) e w2) as (r1 & ev1 & H1 & Hev1).
  unfold bind at 1. rewrite H1.
  destruct (set_cal_total 1 (mag_cal_file o) e (log ev1 w2)) as (r2 & ev2 & H2 & Hev2).
  unfold bind at 1. rewrite H2.
  exists r1, r2, ev1, ev2. repeat split; assumption.
Qed.

(** When the handler cannot be installed or the driver not initialised,
    both programs exit with status 1 before any calibration or sampling. *)
Lemma main_startup_fails fuel o e w :
  sigaction_ret e < 0 \/ init_ret e <> 0 ->
  exists tr,
    Imu.main fuel o e w
    = (Exit 1, {| done := done w; nintr := nintr w; nread := nread w;
                  nok := nok w; trace := trace w ++ tr |})
    /\ Node.main fuel o e w = Imu.main fuel o e w
    /\ count is_shutdown tr = 0%nat /\ count is_read tr = 0%nat
    /\ count is_setter tr = 0%nat.
Proof.
  intros H.
  unfold Node.main, Imu.main, register_sig_handler, mpu9150_set_debug,
    mpu9150_init, bind, ask, perror, exit, emit, ret, log. cbn.
  destruct (Z.ltb_spec (sigaction_ret e) 0) as [Hs|Hs]; cbn.
  - eexists. split; [reflexivity|]. repeat split.
  - destruct H as [H|H]; [lia|]. apply Z.eqb_neq in H. rewrite H. cbn.
    eexists. split; [rewrite <- app_assoc; reflexivity|]. repeat split.
Qed.


(** *** The console variant does what the specification says *)

Lemma imu_read_loop_general fuel rate e w :
  exists tr,
    trace (Imu.read_loop fuel rate e w).2 = trace w ++ tr
    /\ ((Imu.read_loop fuel rate e w).1 = Ret tt
        \/ (Imu.read_loop fuel rate e w).1 = Timeout)
    /\ count is_print tr = count is_fresh_read tr
    /\ count is_shutdown tr = 0%nat
    /\ (count is_read (after_sigint tr) <= 1)%nat.
Proof.
  destruct (Z.eq_dec rate 0) as [->|Hr].
  - exists []. rewrite imu_read_loop_zero. cbn. rewrite app_nil_r.
    repeat split; auto.
  - destruct (imu_read_loop_trace fuel rate e w Hr)
      as (tr & Ht & Hout & _ & Hc1 & _ & Hc3 & Ha).
    exists tr. repeat split; assumption.
Qed.

(** In the console loop the sample is printed if and only if the read
    returned 0: the prints of a run are as many as its fresh reads. *)
Lemma imu_dispatch_iff_fresh fuel rate e w :
  exists tr,
    trace (Imu.read_loop fuel rate e w).2 = trace w ++ tr
    /\ count is_print tr = count is_fresh_read tr.
Proof.
  destruct (imu_read_loop_general fuel rate e w) as (tr & Ht & _ & Hc & _).
  exists tr. split; assumption.
Qed.

Lemma cal_event_kind ev :
  is_cal_event ev = true ->
  is_shutdown ev = false /\ is_read ev = false /\ is_print ev = false
  /\ is_sigint ev = false /\ is_delay ev = false /\ is_publish ev = false.
Proof. destruct ev; cbn; intros H; try discriminate H; repeat split. Qed.

(** When the console [main] returns, it returns 0 and the driver has been
    shut down exactly once, as the last thing done; after the first SIGINT
    at most one read was made. *)
Lemma imu_main_returns fuel o e w v w' :
  Imu.main fuel o e w = (Ret v, w') ->
  v = 0
  /\ exists tr,
       trace w' = trace w ++ tr ++ [EvExit]
       /\ count is_shutdown tr = 0%nat
       /\ (count is_read (after_sigint tr) <= 1)%nat.
Proof.
  intros Hm.
  destruct (Z.ltb_spec (sigaction_ret e) 0) as [Hs|Hs];
    [destruct (main_startup_fails fuel o e w (or_introl Hs)) as (tr & H & _);
     congruence|].
  destruct (Z.eq_dec (init_ret e) 0) as [Hi|Hi];
    [|destruct (main_startup_fails fuel o e w (or_intror Hi)) as (tr & H & _);
      congruence].
  destruct (imu_main_started fuel o e w Hs Hi) as (r1 & r2 & ev1 & ev2 & _ & _ & Hev1 & Hev2 & Hrun).
  rewrite Hrun in Hm. clear Hrun. unfold bind in Hm.
  destruct (imu_read_loop_general fuel (to_uint (sample_rate o)) e
              (started o ev1 ev2 w)) as (tr & Ht & Hout & _ & Hc & Ha).
  rewrite started_trace in Ht. revert Ht Hout Hm.
  destruct (Imu.read_loop fuel (to_uint (sample_rate o)) e (started o ev1 ev2 w))
    as [out w2].
  cbn. intros Ht [->| ->] Hm; [|discriminate Hm].
  unfold mpu9150_exit, emit, ret, log in Hm. inversion Hm; subst.
  cbn [trace]. split; [reflexivity|]. rewrite Ht.
  apply cal_event_kind in Hev1 as (Hx1 & Hr1 & _ & Hg1 & _).
  apply cal_event_kind in Hev2 as (Hx2 & Hr2 & _ & Hg2 & _).
  exists ([EvSetDebug (verbose o);
           EvInit (i2c_bus o) (sample_rate o) (yaw_mix_factor o); ev1; ev2] ++ tr).
  split; [rewrite <- !app_assoc; reflexivity|].
  cbn [app after_sigint is_sigint]. rewrite Hg1, Hg2. split.
  - repeat first [rewrite count_cons|rewrite count_app|rewrite count_nil].
    rewrite Hx1, Hx2. cbn. exact Hc.
  - exact Ha.
Qed.

(** The console program terminates when the flag is set: with SIGINT
    delivered at interruption point [k], enough fuel makes [main] return. *)
Lemma imu_main_terminates fuel o e w k :
  0 <= sigaction_ret e -> init_ret e = 0 ->
  sigint_at e k = true ->
  (nintr w <= k < nintr w + fuel)%nat ->
  (Imu.main fuel o e w).1 = Ret 0.
Proof.
  intros Hs Hi Hk Hr.
  destruct (imu_main_started fuel o e w Hs Hi) as (r1 & r2 & ev1 & ev2 & _ & _ & _ & _ & ->).
  set (w0 := started o ev1 ev2 w).
  assert (nintr w0 = nintr w /\ done w0 = done w) as [Hn Hd] by (split; reflexivity).
  clearbody w0. unfold bind, Imu.read_loop.
  destruct (to_uint (sample_rate o) =? 0); [reflexivity|].
  unfold bind, printf, linux_delay_ms, intr, sigint_handler, emit, log. cbn.
  set (d := Imu.loop_delay_of _).
  destruct (sigint_at e (nintr w0)) eqn:Hsig; cbn.
  - match goal with
    | |- context [Imu.while_not_done fuel d e ?w1] =>
        pose proof (imu_loop_done_returns d e fuel w1) as Hl
    end.
    cbn [done] in Hl. specialize (Hl ltac:(lia) ltac:(lia)). revert Hl.
    destruct (Imu.while_not_done _ _ _ _) as [out w2]. cbn. intros ->. reflexivity.
  - assert (k <> nintr w0) by (intros ->; congruence).
    match goal with
    | |- context [Imu.while_not_done fuel d e ?w1] =>
        pose proof (imu_loop_terminates d e k fuel w1 Hk) as Hl
    end.
    cbn [nintr] in Hl. specialize (Hl ltac:(lia)). revert Hl.
    destruct (Imu.while_not_done _ _ _ _) as [out w2]. cbn. intros ->. reflexivity.
Qed.

(** At sample rate 0 the console program makes no read and no print: it
    shuts the driver down and returns 0. *)
Lemma imu_main_rate_zero fuel o e w :
  0 <= sigaction_ret e -> init_ret e = 0 ->
  to_uint (sample_rate o) = 0 ->
  exists ev1 ev2,
    is_cal_event ev1 = true /\ is_cal_event ev2 = true
    /\ Imu.main fuel o e w = (Ret 0, log EvExit (started o ev1 ev2 w)).
Proof.
  intros Hs Hi Hz.
  destruct (imu_main_started fuel o e w Hs Hi) as (r1 & r2 & ev1 & ev2 & _ & _ & H1 & H2 & ->).
  exists ev1, ev2. rewrite Hz. repeat split; assumption.
Qed.


(** *** The publisher's [main] *)

(** What the publisher's [main] adds to the trace at a sample rate other
    than 0: the events up to the start of sampling, one [linux_delay_ms] of
    the computed delay, then the loop, in which no such delay occurs. *)
Lemma node_main_sampling fuel o e w :
  0 <= sigaction_ret e -> init_ret e = 0 -> sample_rate o <> 0 ->
  exists pre tr,
    trace (Node.main fuel o e w).2
    = trace w ++ pre ++ [EvDelay (Node.loop_delay_of (sample_rate o))] ++ tr
    /\ ((Node.main fuel o e w).1 = Ret 0 \/ (Node.main fuel o e w).1 = Timeout)
    /\ count is_delay pre = 0%nat /\ count is_read pre = 0%nat
    /\ count is_shutdown pre = 0%nat
    /\ count is_publish tr = count is_read tr
    /\ count is_rate_sleep tr = count is_read tr
    /\ count is_delay tr = 0%nat
    /\ count is_shutdown tr = 0%nat.
Proof.
  intros Hs Hi Hrate. apply Z.eqb_neq in Hrate.
  destruct (node_main_started fuel o e w Hs Hi)
    as (r1 & r2 & ev1 & ev2 & _ & _ & Hev1 & Hev2 & ->).
  rewrite Hrate. set (d := Node.loop_delay_of _).
  apply cal_event_kind in Hev1 as (Hx1 & Hr1 & _ & _ & Hd1 & _).
  apply cal_event_kind in Hev2 as (Hx2 & Hr2 & _ & _ & Hd2 & _).
  unfold bind, printf, linux_delay_ms, intr, sigint_handler, emit, ret.
  cbn [fst snd].
  destruct (sigint_at e (nintr (log _ (started o ev1 ev2 w)))).
  - match goal with
    | |- context [Node.while_ros_ok fuel 0 e ?w1] =>
        destruct (node_loop_trace e fuel 0 w1)
          as (tr & Ht & Hout & Hc1 & Hc2 & Hc3 & _ & Hc5);
        revert Ht Hout; destruct (Node.while_ros_ok fuel 0 e w1) as [out w2]
    end.
    cbn [fst snd]. intros Ht [->| ->]; cbn [fst snd]; rewrite Ht.
    all: cbn [trace log]; rewrite started_trace.
    all: exists ([EvSetDebug (verbose o);
                  EvInit (i2c_bus o) (sample_rate o) (yaw_mix_factor o);
                  ev1; ev2;
                  EvPrintf (nl +:+ "Entering MPU read loop (ctrl-c to exit)" +:+ nl +:+ nl);
                  EvSigint]), tr.
    all: split; [rewrite <- !app_assoc; reflexivity|].
    all: split; [auto|].
    all: repeat first [rewrite count_cons|rewrite count_nil].
    all: rewrite Hx1, Hx2, Hr1, Hr2, Hd1, Hd2; cbn; repeat split; assumption.
  - match goal with
    | |- context [Node.while_ros_ok fuel 0 e ?w1] =>
        destruct (node_loop_trace e fuel 0 w1)
          as (tr & Ht & Hout & Hc1 & Hc2 & Hc3 & _ & Hc5);
        revert Ht Hout; destruct (Node.while_ros_ok fuel 0 e w1) as [out w2]
    end.
    cbn [fst snd]. intros Ht [->| ->]; cbn [fst snd]; rewrite Ht.
    all: cbn [trace log]; rewrite started_trace.
    all: exists ([EvSetDebug (verbose o);
                  EvInit (i2c_bus o) (sample_rate o) (yaw_mix_factor o);
                  ev1; ev2;
                  EvPrintf (nl +:+ "Entering MPU read loop (ctrl-c to exit)" +:+ nl +:+ nl)]),
           tr.
    all: split; [rewrite <- !app_assoc; reflexivity|].
    all: split; [auto|].
    all: repeat first [rewrite count_cons|rewrite count_nil].
    all: rewrite Hx1, Hx2, Hr1, Hr2, Hd1, Hd2; cbn; repeat split; assumption.
Qed.

(** At sample rate 0 the publisher's [main] returns -1 as soon as the two
    [set_cal] calls are made. *)
Lemma node_main_rate_zero fuel o e w :
  0 <= sigaction_ret e -> init_ret e = 0 -> sample_rate o = 0 ->
  exists ev1 ev2,
    is_cal_event ev1 = true /\ is_cal_event ev2 = true
    /\ Node.main fuel o e w = (Ret (-1), started o ev1 ev2 w).
Proof.
  intros Hs Hi Hz.
  destruct (node_main_started fuel o e w Hs Hi)
    as (r1 & r2 & ev1 & ev2 & _ & _ & H1 & H2 & ->).
  exists ev1, ev2. rewrite Hz. repeat split; assumption.
Qed.

(** No run of the publisher's [main] calls [mpu9150_exit]. *)
Lemma node_main_no_shutdown fuel o e w :
  exists tr,
    trace (Node.main fuel o e w).2 = trace w ++ tr
    /\ count is_shutdown tr = 0%nat.
Proof.
  destruct (Z.ltb_spec (sigaction_ret e) 0) as [Hs|Hs];
    [destruct (main_startup_fails fuel o e w (or_introl Hs)) as (tr & H & -> & Hc & _);
     rewrite H; exists tr; split; [reflexivity|exact Hc]|].
  destruct (Z.eq_dec (init_ret e) 0) as [Hi|Hi];
    [|destruct (main_startup_fails fuel o e w (or_intror Hi)) as (tr & H & -> & Hc & _);
      rewrite H; exists tr; split; [reflexivity|exact Hc]].
  destruct (Z.eq_dec (sample_rate o) 0) as [Hz|Hz].
  - destruct (node_main_rate_zero fuel o e w Hs Hi Hz) as (ev1 & ev2 & H1 & H2 & ->).
    cbn [snd]. rewrite started_trace. eexists. split; [reflexivity|].
    apply cal_event_kind in H1 as (Hx1 & _). apply cal_event_kind in H2 as (Hx2 & _).
    repeat first [rewrite count_cons|rewrite count_nil]. rewrite Hx1, Hx2.
    reflexivity.
  - destruct (node_main_sampling fuel o e w Hs Hi Hz)
      as (pre & tr & Ht & _ & _ & _ & Hp & _ & _ & _ & Hc).
    rewrite Ht. eexists. split; [reflexivity|].
    repeat first [rewrite count_cons|rewrite count_app|rewrite count_nil].
    rewrite Hp, Hc. reflexivity.
Qed.




(** ** The sampling loops: the claims *)

(** The scenario of C2 on the console: five reads that are not ready, then
    a sample, then SIGINT; one print in the six cycles. *)
Example imu_scenario_one_print :
  let e := run_env (fun k => if (k <? 5)%nat then -1 else 0) 0
             (fun k => (k =? 19)%nat) in
  let r := Imu.main 10 (default_options 10) e world0 in
  r.1 = Ret 0 /\ count is_read (trace r.2) = 6%nat
  /\ count is_print (trace r.2) = 1%nat.
Proof. cbv zeta. repeat split; vm_compute; reflexivity. Qed.

(** C2, where the code departs from it.  In the publisher's loop
    [chatter_pub.publish(msg)] stands outside the test of the read result:
    every run publishes once per read, fresh or not; with five reads that
    are not ready and then a sample, six messages are published in the six
    cycles, five of them empty, and not one. *)
Theorem C2_node_publishes_every_cycle :
  (forall fuel c e w,
     exists tr,
       trace (Node.while_ros_ok fuel c e w).2 = trace w ++ tr
       /\ count is_publish tr = count is_read tr)
  /\ let e := run_env (fun k => if (k <? 5)%nat then -1 else 0) 6
                (fun _ => false) in
     let r := Node.main 10 (default_options 10) e world0 in
     r.1 = Ret 0
     /\ count is_read (trace r.2) = 6%nat
     /\ count is_fresh_read (trace r.2) = 1%nat
     /\ count is_publish (trace r.2) = 6%nat
     /\ count (fun ev => match ev with EvPublish false => true | _ => false end)
          (trace r.2) = 5%nat.
Proof.
  split.
  - intros fuel c e w.
    destruct (node_loop_trace e fuel c w) as (tr & Ht & _ & Hc & _).
    exists tr. split; assumption.
  - cbv zeta. repeat split; vm_compute; reflexivity.
Qed.

(** C3, where the code departs from it.  No run of the publisher's [main]
    calls the driver shutdown, on any exit path; and its loop is governed by
    ros::ok(), not by the flag: with SIGINT delivered before the first
    delay and ros::ok() true three times, [done] is 1 and three reads and
    publishes follow all the same. *)
Theorem C3_node_ignores_flag_and_never_shuts_down :
  (forall fuel o e w,
     exists tr,
       trace (Node.main fuel o e w).2 = trace w ++ tr
       /\ count is_shutdown tr = 0%nat)
  /\ let e := run_env (fun _ => 0) 3 (fun k => (k =? 0)%nat) in
     let r := Node.main 10 (default_options 10) e world0 in
     r.1 = Ret 0
     /\ done r.2 = 1
     /\ count is_read (after_sigint (trace r.2)) = 3%nat
     /\ count is_publish (after_sigint (trace r.2)) = 3%nat
     /\ count is_shutdown (trace r.2) = 0%nat.
Proof.
  split.
  - intros fuel o e w. apply node_main_no_shutdown.
  - cbv zeta. repeat split; vm_compute; reflexivity.
Qed.




(** C8 as stated fails on the publisher: at 20 Hz, two cycles make two
    reads but a single [linux_delay_ms]; the second read follows a
    [loop_rate.sleep] and no delay of 48 ms. *)
Lemma C8_counterexample :
  let e := run_env (fun _ => 0) 2 (fun _ => false) in
  let r := Node.main 10 (default_options 20) e world0 in
  r.1 = Ret 0
  /\ Node.loop_delay_of 20 = 48
  /\ count is_read (trace r.2) = 2%nat
  /\ count is_delay (trace r.2) = 1%nat
  /\ paced 48 false (trace r.2) = false.
Proof. cbv zeta. repeat split; vm_compute; reflexivity. Qed.

(** C8 (as amended).  The delay is computed once from the sample rate.  In
    the console [read_loop] every [linux_delay_ms] is of that value and
    every read comes after one made since the read before: one delay before
    each iteration.  In the publisher's [main] the delay is applied once,
    before the loop; in the loop there is no [linux_delay_ms] and each read
    is followed by one [loop_rate.sleep]. *)
Theorem C8_one_fixed_delay fuel o e w :
  0 <= sigaction_ret e -> init_ret e = 0 ->
  sample_rate o <> 0 -> to_uint (sample_rate o) <> 0 ->
  (exists tr,
     trace (Imu.read_loop fuel (to_uint (sample_rate o)) e w).2 = trace w ++ tr
     /\ paced (Imu.loop_delay_of (to_uint (sample_rate o))) false tr = true
     /\ count is_delay tr = S (count is_read tr))
  /\ (exists pre tr,
        trace (Node.main fuel o e w).2
        = trace w ++ pre ++ [EvDelay (Node.loop_delay_of (sample_rate o))] ++ tr
        /\ count is_delay pre = 0%nat /\ count is_read pre = 0%nat
        /\ count is_delay tr = 0%nat
        /\ count is_rate_sleep tr = count is_read tr).
Proof.
  intros Hs Hi Hz Hu. split.
  - destruct (imu_read_loop_trace fuel _ e w Hu) as (tr & Ht & _ & Hp & _ & Hd & _).
    exists tr. repeat split; assumption.
  - destruct (node_main_sampling fuel o e w Hs Hi Hz)
      as (pre & tr & Ht & _ & Hd & Hr & _ & _ & Hc & Hd' & _).
    exists pre, tr. repeat split; assumption.
Qed.

(** C8 at 20 Hz: the console pacing, with SIGINT after two cycles. *)
Lemma C8_witness :
  let e := run_env (fun _ => 0) 2 (fun k => (k =? 8)%nat) in
  Imu.loop_delay_of (to_uint 20) = 48
  /\ exists tr,
       trace (Imu.read_loop 10 (to_uint 20) e world0).2 = trace world0 ++ tr
       /\ paced 48 false tr = true
       /\ count is_delay tr = S (count is_read tr).
Proof.
  split; [reflexivity|].
  destruct (C8_one_fixed_delay 10 (default_options 20)
              (run_env (fun _ => 0) 2 (fun k => (k =? 8)%nat)) world0)
    as [H _].
  - cbn. lia.
  - reflexivity.
  - cbn. lia.
  - vm_compute. discriminate.
  - exact H.
Defined.







(** ** The command line: facts *)

Lemma logged_nil w : logged [] w = w.
Proof. destruct w. unfold logged. cbn. rewrite app_nil_r. reflexivity. Qed.

Lemma logged_log tr ev w : log ev (logged tr w) = logged (tr ++ [ev]) w.
Proof. unfold log, logged. cbn. rewrite app_assoc. reflexivity. Qed.

Lemma logged_logged a b w : logged b (logged a w) = logged (a ++ b) w.
Proof. unfold logged. cbn. rewrite app_assoc. reflexivity. Qed.

Lemma log_logged ev w : log ev w = logged [ev] w.
Proof. reflexivity. Qed.

Lemma printf_all_run l : forall e w,
  printf_all l e w = (Ret tt, logged (EvPrintf <$> l) w).
Proof.
  induction l as [|s l IH]; intros e w; cbn [printf_all].
  - unfold ret. rewrite logged_nil. reflexivity.
  - unfold bind, printf, emit. rewrite IH, log_logged, logged_logged.
    reflexivity.
Qed.

(** [usage] prints the help text and exits with status 1. *)
Lemma usage_run argv_0 e w :
  usage argv_0 e w = (Exit 1, logged (EvPrintf <$> usage_text argv_0) w).
Proof. unfold usage, bind. rewrite printf_all_run. reflexivity. Qed.

Lemma diagnostic_printfs l : forallb is_diagnostic (EvPrintf <$> l) = true.
Proof. induction l; [reflexivity|exact IHl]. Qed.

(** One step of reasoning on the option loop: the tests of a case. *)
Ltac option_case :=
  unfold bind, copy_optarg, perror, printf, emit, ret, exit;
  repeat match goal with
         | |- context [einval ?c ?k] => destruct (einval c k) eqn:?
         | |- context [malloc_ok ?c ?j] => destruct (malloc_ok c j) eqn:?
         | |- context [usage ?a ?e ?w] => rewrite (usage_run a e w)
         | |- context [if ?b || ?b' then _ else _] => destruct (b || b') eqn:?
         end.

Ltac rejected :=
  right; rewrite ?log_logged, ?logged_logged; eexists;
  split; [reflexivity|];
  rewrite ?forallb_app; cbn; rewrite ?diagnostic_printfs; reflexivity.

Lemma bounds_checked lo hi v :
  (v <? lo) || (hi <? v) = false -> lo <= v <= hi.
Proof. intros H. apply orb_false_iff in H as [H1 H2]. lia. Qed.

(** The option loop keeps a checked configuration checked: it ends with
    such a configuration and nothing printed, all options being known ones,
    or it exits with status 1 after diagnostics only. *)
Lemma imu_getopt_loop_spec d c a opts : forall o k j e w,
  checked d o ->
  (exists o',
     Imu.getopt_loop d c a opts o k j e w = (Ret o', w)
     /\ checked d o' /\ forallb (fun x => known_option x.1) opts = true)
  \/ (exists tr,
        Imu.getopt_loop d c a opts o k j e w = (Exit 1, logged tr w)
        /\ forallb is_diagnostic tr = true).
Proof.
  induction opts as [|[opt arg] rest IH]; intros o k j e w Ho.
  - left. exists o. split; [reflexivity|]. split; [exact Ho|reflexivity].
  - cbn [Imu.getopt_loop forallb fst]. unfold known_option.
    destruct Ho as (Hb & Hs & Hy & Hv).
    repeat (match goal with
            | |- context [Ascii.eqb opt ?x] => destruct (Ascii.eqb opt x) eqn:?
            end; cbn [orb andb]);
      option_case; try rejected;
      match goal with
      | |- context [Imu.getopt_loop _ _ _ _ ?o1 ?k1 ?j1 ?e1 ?w1] =>
          destruct (IH o1 k1 j1 e1 w1) as [(o' & -> & Ho' & Hk)|(tr & -> & Htr)]
      end;
      try (right; exists tr; split; [reflexivity|assumption]);
      try (left; exists o'; split; [reflexivity|]; split; assumption);
      repeat split; cbn; auto; right; apply bounds_checked; assumption.
Qed.

(** The two option loops end alike: with the same configuration and
    nothing printed, or both by [exit(1)] after diagnostics. *)
Lemma node_getopt_loop_alike d c a opts : forall o k j e w,
  (exists o',
     Imu.getopt_loop d c a opts o k j e w = (Ret o', w)
     /\ Node.getopt_loop d c a opts o k j e w = (Ret o', w))
  \/ (exists tr tr',
        Imu.getopt_loop d c a opts o k j e w = (Exit 1, logged tr w)
        /\ Node.getopt_loop d c a opts o k j e w = (Exit 1, logged tr' w)
        /\ forallb is_diagnostic tr' = true).
Proof.
  induction opts as [|[opt arg] rest IH]; intros o k j e w.
  - left. exists o. split; reflexivity.
  - cbn [Imu.getopt_loop Node.getopt_loop].
    repeat (match goal with
            | |- context [Ascii.eqb opt ?x] => destruct (Ascii.eqb opt x) eqn:?
            end; cbn [orb andb]);
      option_case;
      try (right; rewrite ?log_logged, ?logged_logged; eexists _, _;
           split; [reflexivity|]; split; [reflexivity|];
           rewrite ?forallb_app; cbn; rewrite ?diagnostic_printfs; reflexivity);
      match goal with
      | |- context [Imu.getopt_loop _ _ _ _ ?o1 ?k1 ?j1 ?e1 ?w1] =>
          destruct (IH o1 k1 j1 e1 w1)
            as [(o' & -> & ->)|(tr & tr' & -> & -> & Htr)];
          [left; exists o'; split; reflexivity
          |right; exists tr, tr'; split; [reflexivity|];
           split; [reflexivity|assumption]]
      end.
Qed.

(** An accepted command line gives every option the value of its last
    occurrence. *)
Lemma imu_getopt_loop_settled d c a opts : forall o k j e w,
  match (Imu.getopt_loop d c a opts o k j e w).1 with
  | Ret o' => settled opts o o'
  | _ => True
  end.
Proof.
  induction opts as [|[opt arg] rest IH]; intros o k j e w.
  - cbn. repeat split.
  - cbn [Imu.getopt_loop].
    repeat (match goal with
            | |- context [Ascii.eqb opt ?x] =>
                destruct (Ascii.eqb_spec opt x) as [->|?]
            end; cbn [orb andb]);
      option_case; try exact I;
      match goal with
      | |- context [Imu.getopt_loop _ _ _ _ ?o1 ?k1 ?j1 ?e1 ?w1] =>
          pose proof (IH o1 k1 j1 e1 w1) as Hs;
          destruct (Imu.getopt_loop d c a rest o1 k1 j1 e1 w1) as [[o'| |] w']
      end; try exact I;
      cbn [fst] in *; destruct Hs as (H1 & H2 & H3 & H4 & H5 & H6);
      unfold settled; cbn [last_arg existsb fst];
      rewrite H1, H2, H3, H4, H5, H6; cbn;
      repeat split;
      repeat match goal with
             | |- context [last_arg ?x rest] => destruct (last_arg x rest)
             | |- context [existsb ?f rest] => destruct (existsb f rest)
             end; reflexivity.
Qed.

Lemma initial_options_checked d : checked d (initial_options d).
Proof. repeat split; left; reflexivity. Qed.

Lemma diagnostics_no_driver tr :
  forallb is_diagnostic tr = true -> count is_driver tr = 0%nat.
Proof.
  induction tr as [|ev tr IH]; [reflexivity|]. cbn [forallb].
  intros H. apply andb_true_iff in H as [Hev H]. rewrite count_cons, (IH H).
  destruct ev; try discriminate Hev; reflexivity.
Qed.

Lemma paced_skip d delayed ev tr :
  is_read ev = false -> is_delay ev = false ->
  paced d delayed (ev :: tr) = paced d delayed tr.
Proof. destruct ev; cbn; intros; try discriminate; reflexivity. Qed.

(** ** The command line: properties *)

(** X1.  A command line that the console option loop accepts leaves nothing
    printed and a configuration in which the bus number, the sample rate
    and the yaw mix factor are each the default or within their bounds and
    [verbose] is 0 or 1; every option was one of b, s, y, a, m, v; and the
    publisher's loop accepts it with the same configuration. *)
Theorem X1_accepted_options_are_checked d c argv_0 opts e w o w' :
  Imu.parse_options d c argv_0 opts e w = (Ret o, w') ->
  w' = w
  /\ checked d o
  /\ forallb (fun x => known_option x.1) opts = true
  /\ Node.parse_options d c argv_0 opts e w = (Ret o, w).
Proof.
  unfold Imu.parse_options, Node.parse_options. intros H.
  destruct (imu_getopt_loop_spec d c argv_0 opts (initial_options d) 0 0 e w
              (initial_options_checked d))
    as [(o1 & H1 & Hc & Hk)|(tr & H1 & _)]; [|congruence].
  rewrite H in H1. injection H1 as -> ->.
  split; [reflexivity|]. split; [exact Hc|]. split; [exact Hk|].
  destruct (node_getopt_loop_alike d c argv_0 opts (initial_options d) 0 0 e w)
    as [(o2 & H2 & H3)|(tr & tr' & H2 & _)]; congruence.
Qed.

(** X1 on the command line of the help text's example, -b3 -s20 -y10. *)
Lemma X1_witness :
  let opts := [("b"%char, "3"); ("s"%char, "20"); ("y"%char, "10")] in
  let o := {| i2c_bus := 3; sample_rate := 20; yaw_mix_factor := 10;
              verbose := 0; mag_cal_file := None; accel_cal_file := None |} in
  Imu.parse_options help_text_defaults quiet_cli "imu" opts
    (quiet_env ∅ (fun _ => 0)) world0 = (Ret o, world0)
  /\ checked help_text_defaults o
  /\ Node.parse_options help_text_defaults quiet_cli "imu" opts
       (quiet_env ∅ (fun _ => 0)) world0 = (Ret o, world0).
Proof.
  cbv zeta. split; [reflexivity|].
  refine ((fun H => conj (proj1 (proj2 H)) (proj2 (proj2 (proj2 H))))
            (X1_accepted_options_are_checked help_text_defaults quiet_cli "imu"
               [("b"%char, "3"); ("s"%char, "20"); ("y"%char, "10")]
               (quiet_env ∅ (fun _ => 0)) world0 _ world0 _)).
  reflexivity.
Defined.

(** X2.  In an accepted command line every option has the value of its
    last occurrence, converted by [strtoul] in base 0 and cut to [int] for
    the three numbers; options that do not occur keep their defaults. *)
Theorem X2_last_occurrence_wins d c argv_0 opts e w o w' :
  Imu.parse_options d c argv_0 opts e w = (Ret o, w') ->
  settled opts (initial_options d) o.
Proof.
  unfold Imu.parse_options. intros H.
  pose proof (imu_getopt_loop_settled d c argv_0 opts (initial_options d) 0 0 e w)
    as Hs.
  rewrite H in Hs. exact Hs.
Qed.

(** X2 on -s5 -s0x14 -v: the rate is that of the second -s, in hexadecimal. *)
Lemma X2_witness :
  exists o,
    Imu.parse_options help_text_defaults quiet_cli "imu"
      [("s"%char, "5"); ("s"%char, "0x14"); ("v"%char, EmptyString)]
      (quiet_env ∅ (fun _ => 0)) world0 = (Ret o, world0)
    /\ sample_rate o = 20 /\ i2c_bus o = 1 /\ verbose o = 1.
Proof.
  exists {| i2c_bus := 1; sample_rate := 20; yaw_mix_factor := 4; verbose := 1;
            mag_cal_file := None; accel_cal_file := None |}.
  split; [reflexivity|].
  destruct (X2_last_occurrence_wins help_text_defaults quiet_cli "imu"
              [("s"%char, "5"); ("s"%char, "0x14"); ("v"%char, EmptyString)]
              (quiet_env ∅ (fun _ => 0)) world0 _ world0 eq_refl)
    as (Hb & Hs & _ & _ & _ & Hv).
  split; [exact Hs|]. split; [exact Hb|exact Hv].
Defined.



(** X4.  Whatever the command line, each program either goes on to the rest
    of [main] with a checked configuration and nothing printed, or exits
    with status 1 having printed diagnostics only: no call into the driver
    is made for a command line that is not accepted.  The two programs
    decide alike. *)
Theorem X4_rejected_command_line_never_reaches_driver d c fuel argv_0 opts e w :
  (exists o,
     checked d o
     /\ Imu.main_argv d c fuel argv_0 opts e w = Imu.main fuel o e w
     /\ Node.main_argv d c fuel argv_0 opts e w = Node.main fuel o e w)
  \/ (exists tr tr',
        Imu.main_argv d c fuel argv_0 opts e w = (Exit 1, logged tr w)
        /\ Node.main_argv d c fuel argv_0 opts e w = (Exit 1, logged tr' w)
        /\ count is_driver tr = 0%nat /\ count is_driver tr' = 0%nat).
Proof.
  unfold Imu.main_argv, Node.main_argv, Imu.parse_options,
    Node.parse_options, bind.
  destruct (imu_getopt_loop_spec d c argv_0 opts (initial_options d) 0 0 e w
              (initial_options_checked d))
    as [(o1 & H1 & Hc & Hk')|(tr & H1 & Htr)];
    destruct (node_getopt_loop_alike d c argv_0 opts (initial_options d) 0 0 e w)
      as [(o2 & H2 & H3)|(tr1 & tr' & H2 & H3 & Htr')]; try congruence.
  - left. exists o1. assert (o2 = o1) as -> by congruence.
    rewrite H1, H3. split; [exact Hc|]. split; reflexivity.
  - right. exists tr, tr'. rewrite H1, H3.
    repeat split; auto using diagnostics_no_driver.
Qed.

(** ** The programs as wholes: properties *)

(** X5.  End to end on the console: when the bounds of the sample rate lie
    within 1..500 Hz, every accepted command line makes [read_loop] enter
    its loop (the rate is not 0), and once the driver is initialised every
    [linux_delay_ms] of the run is of floor(1000 / rate) - 2 ms for the
    rate of the command line, one being made before each read. *)
Theorem X5_accepted_rate_paces_the_console d c fuel argv_0 opts e w o :
  1 <= MIN_SAMPLE_RATE d -> MAX_SAMPLE_RATE d <= 500 ->
  1 <= DEFAULT_SAMPLE_RATE_HZ d <= 500 ->
  0 <= sigaction_ret e -> init_ret e = 0 ->
  Imu.parse_options d c argv_0 opts e w = (Ret o, w) ->
  1 <= sample_rate o <= 500
  /\ 0 <= 1000 / sample_rate o - 2 <= 998
  /\ exists tr,
       trace (Imu.main_argv d c fuel argv_0 opts e w).2 = trace w ++ tr
       /\ paced (1000 / sample_rate o - 2) false tr = true
       /\ count is_delay tr = S (count is_read tr).
Proof.
  intros Hmin Hmax Hdef Hs Hi Hp.
  assert (checked d o) as (_ & Hrate & _).
  { unfold Imu.parse_options in Hp.
    destruct (imu_getopt_loop_spec d c argv_0 opts (initial_options d) 0 0 e w
                (initial_options_checked d))
      as [(o1 & H1 & Hc & _)|(tr & H1 & _)]; [|congruence].
    rewrite Hp in H1. injection H1 as ->. exact Hc. }
  assert (1 <= sample_rate o <= 500) as Hr by lia. clear Hrate.
  split; [exact Hr|].
  destruct (quotient_bounds _ Hr) as [_ Hq]. split; [lia|].
  unfold Imu.main_argv, bind. rewrite Hp.
  destruct (imu_main_started fuel o e w Hs Hi)
    as (r1 & r2 & ev1 & ev2 & _ & _ & Hev1 & Hev2 & ->).
  assert (to_uint (sample_rate o) = sample_rate o) as Hu.
  { unfold to_uint, wrap. change (2 ^ 32) with 4294967296.
    apply Z.mod_small. lia. }
  rewrite Hu. unfold bind.
  destruct (imu_read_loop_trace fuel (sample_rate o) e (started o ev1 ev2 w)
              ltac:(lia)) as (tr & Ht & Hout & Hpaced & _ & Hcount & _).
  rewrite imu_loop_delay_exact in Hpaced by exact Hr.
  rewrite started_trace in Ht.
  apply cal_event_kind in Hev1 as (_ & Hr1 & _ & _ & Hd1 & _).
  apply cal_event_kind in Hev2 as (_ & Hr2 & _ & _ & Hd2 & _).
  revert Ht Hout.
  destruct (Imu.read_loop fuel (sample_rate o) e (started o ev1 ev2 w))
    as [out w2].
  cbn [fst snd]. intros Ht [->| ->]; cbn [fst snd mpu9150_exit emit ret log trace];
    rewrite Ht.
  - exists ([EvSetDebug (verbose o);
             EvInit (i2c_bus o) (sample_rate o) (yaw_mix_factor o); ev1; ev2]
            ++ tr ++ [EvExit]).
    split; [rewrite <- !app_assoc; reflexivity|]. split.
    + cbn [app]. rewrite !paced_skip by first [assumption|reflexivity].
      apply paced_app; [exact Hpaced|reflexivity|reflexivity].
    + repeat first [rewrite count_cons|rewrite count_app|rewrite count_nil].
      rewrite Hr1, Hr2, Hd1, Hd2, Hcount. cbn. lia.
  - exists ([EvSetDebug (verbose o);
             EvInit (i2c_bus o) (sample_rate o) (yaw_mix_factor o); ev1; ev2]
            ++ tr).
    split; [rewrite <- !app_assoc; reflexivity|]. split.
    + cbn [app]. rewrite !paced_skip by first [assumption|reflexivity]. exact Hpaced.
    + repeat first [rewrite count_cons|rewrite count_app|rewrite count_nil].
      rewrite Hr1, Hr2, Hd1, Hd2, Hcount. cbn. lia.
Qed.

(** X5 on -s20 with SIGINT at the fourth interruption point. *)
Lemma X5_witness :
  let e := run_env (fun _ => 0) 0 (fun k => (k =? 4)%nat) in
  1000 / 20 - 2 = 48
  /\ exists tr,
       trace (Imu.main_argv help_text_defaults quiet_cli 5 "imu"
                [("s"%char, "20")] e world0).2 = trace world0 ++ tr
       /\ paced 48 false tr = true
       /\ count is_delay tr = S (count is_read tr).
Proof.
  split; [reflexivity|].
  destruct (X5_accepted_rate_paces_the_console help_text_defaults quiet_cli 5
              "imu" [("s"%char, "20")]
              (run_env (fun _ => 0) 0 (fun k => (k =? 4)%nat)) world0
              {| i2c_bus := 1; sample_rate := 20; yaw_mix_factor := 4;
                 verbose := 0; mag_cal_file := None; accel_cal_file := None |})
    as (_ & _ & H).
  - cbn. lia.
  - cbn. lia.
  - cbn. lia.
  - cbn. lia.
  - reflexivity.
  - reflexivity.
  - exact H.
Defined.

(** X6.  When [sigaction] fails or [mpu9150_init] returns non-zero, both
    programs end by [exit(1)] with the same trace: no calibration file is
    read, no setter, read or shutdown call is made; when it is [sigaction]
    that fails, no call into the driver is made at all. *)
Theorem X6_failed_startup_exits fuel o e w :
  sigaction_ret e < 0 \/ init_ret e <> 0 ->
  exists tr,
    Imu.main fuel o e w = (Exit 1, logged tr w)
    /\ Node.main fuel o e w = (Exit 1, logged tr w)
    /\ count is_setter tr = 0%nat /\ count is_read tr = 0%nat
    /\ count is_shutdown tr = 0%nat /\ count is_delay tr = 0%nat
    /\ (sigaction_ret e < 0 -> count is_driver tr = 0%nat).
Proof.
  intros H.
  unfold Node.main, Imu.main, register_sig_handler, mpu9150_set_debug,
    mpu9150_init, bind, ask, perror, exit, emit, ret, log, logged. cbn.
  destruct (Z.ltb_spec (sigaction_ret e) 0) as [Hs|Hs]; cbn.
  - eexists. split; [reflexivity|]. repeat split.
  - destruct H as [H|H]; [lia|]. apply Z.eqb_neq in H. rewrite H. cbn.
    eexists. split; [rewrite <- app_assoc; reflexivity|].
    split; [rewrite <- app_assoc; reflexivity|]. repeat split. lia.
Qed.

(** X6 with a driver that fails to initialise. *)
Lemma X6_witness :
  let e := {| fs := ∅; sigaction_ret := 0; init_ret := -1;
              read_ret := fun _ => 0; ros_ok := fun _ => true;
              sigint_at := fun _ => false |} in
  exists tr,
    Imu.main 5 (default_options 10) e world0 = (Exit 1, logged tr world0)
    /\ Node.main 5 (default_options 10) e world0 = (Exit 1, logged tr world0)
    /\ count is_setter tr = 0%nat.
Proof.
  destruct (X6_failed_startup_exits 5 (default_options 10)
              {| fs := ∅; sigaction_ret := 0; init_ret := -1;
                 read_ret := fun _ => 0; ros_ok := fun _ => true;
                 sigint_at := fun _ => false |} world0)
    as (tr & H1 & H2 & H3 & _).
  - right. cbn. lia.
  - exists tr. repeat split; assumption.
Defined.

(** X7.  Whenever the console [main] returns, it returns 0, and
    [mpu9150_exit] has been called exactly once, as the last call of the
    run; after the first SIGINT of the run at most one read was made. *)
Theorem X7_console_returns_after_one_shutdown fuel o e w v w' :
  Imu.main fuel o e w = (Ret v, w') ->
  v = 0
  /\ exists tr,
       trace w' = trace w ++ tr ++ [EvExit]
       /\ count is_shutdown tr = 0%nat
       /\ (count is_read (after_sigint tr) <= 1)%nat.
Proof. apply imu_main_returns. Qed.

(** X7 on a run at 10 Hz that SIGINT ends in its second cycle. *)
Lemma X7_witness :
  let e := run_env (fun _ => 0) 0 (fun k => (k =? 6)%nat) in
  exists w' tr,
    Imu.main 10 (default_options 10) e world0 = (Ret 0, w')
    /\ trace w' = trace world0 ++ tr ++ [EvExit]
    /\ count is_shutdown tr = 0%nat.
Proof.
  cbv zeta.
  destruct (Imu.main 10 (default_options 10)
              (run_env (fun _ => 0) 0 (fun k => (k =? 6)%nat)) world0)
    as [out w'] eqn:Hrun.
  assert (out = Ret 0) as -> by (vm_compute in Hrun; congruence).
  destruct (X7_console_returns_after_one_shutdown _ _ _ _ _ _ Hrun)
    as (_ & tr & Ht & Hc & _).
  exists w', tr. repeat split; assumption.
Defined.

(** X8.  The console program ends when the flag is set: with the handler
    installed and the driver initialised, a SIGINT delivered at the
    interruption point [k] makes [main] return 0, given fuel for the
    iterations up to that point. *)
Theorem X8_console_terminates_on_sigint fuel o e w k :
  0 <= sigaction_ret e -> init_ret e = 0 ->
  sigint_at e k = true ->
  (nintr w <= k < nintr w + fuel)%nat ->
  (Imu.main fuel o e w).1 = Ret 0.
Proof. apply imu_main_terminates. Qed.

(** X8 with SIGINT at the interruption point 6 and fuel 7. *)
Lemma X8_witness :
  (Imu.main 7 (default_options 10)
     (run_env (fun _ => 0) 0 (fun k => (k =? 6)%nat)) world0).1 = Ret 0.
Proof.
  apply (X8_console_terminates_on_sigint 7 (default_options 10)
           (run_env (fun _ => 0) 0 (fun k => (k =? 6)%nat)) world0 6%nat).
  - cbn. lia.
  - reflexivity.
  - reflexivity.
  - cbn. lia.
Defined.

(** X9.  At sample rate 0 the console [main] makes no read, no print and no
    delay: after the two [set_cal] calls it shuts the driver down and
    returns 0. *)
Theorem X9_console_rate_zero fuel o e w :
  0 <= sigaction_ret e -> init_ret e = 0 ->
  to_uint (sample_rate o) = 0 ->
  exists ev1 ev2,
    is_cal_event ev1 = true /\ is_cal_event ev2 = true
    /\ Imu.main fuel o e w
       = (Ret 0,
          logged [EvSetDebug (verbose o);
                  EvInit (i2c_bus o) (sample_rate o) (yaw_mix_factor o);
                  ev1; ev2; EvExit] w).
Proof.
  intros Hs Hi Hz.
  destruct (imu_main_rate_zero fuel o e w Hs Hi Hz) as (ev1 & ev2 & H1 & H2 & ->).
  exists ev1, ev2. split; [exact H1|]. split; [exact H2|].
  unfold started, configured, log, logged. cbn. rewrite <- !app_assoc.
  reflexivity.
Qed.

(** X9 at the default options with rate 0. *)
Lemma X9_witness :
  exists ev1 ev2,
    Imu.main 5 (default_options 0) (run_env (fun _ => 0) 0 (fun _ => false)) world0
    = (Ret 0, logged [EvSetDebug 0; EvInit 1 0 4; ev1; ev2; EvExit] world0).
Proof.
  destruct (X9_console_rate_zero 5 (default_options 0)
              (run_env (fun _ => 0) 0 (fun _ => false)) world0)
    as (ev1 & ev2 & _ & _ & H).
  - cbn. lia.
  - reflexivity.
  - reflexivity.
  - exists ev1, ev2. exact H.
Defined.

(** ** The sampling loops: further properties *)

Lemma dispatch_ok_app a : forall p b,
  dispatch_ok p a = true -> dispatch_ok false b = true ->
  dispatch_ok p (a ++ b) = true.
Proof.
  induction a as [|ev a IH]; intros p b Ha Hb.
  - destruct p; [discriminate Ha|exact Hb].
  - destruct ev; cbn [app dispatch_ok] in *; auto;
      apply andb_true_iff in Ha as [-> Ha]; cbn [andb]; auto.
Qed.

Ltac read_results :=
  repeat match goal with
         | H : (_ =? 0) = _ |- _ => rewrite H
         end.

Lemma imu_loop_dispatch d e fuel : forall w,
  exists tr,
    trace (Imu.while_not_done fuel d e w).2 = trace w ++ tr
    /\ dispatch_ok false tr = true.
Proof.
  induction fuel as [|fuel IH]; intros w.
  - exists []. cbn. rewrite app_nil_r. split; reflexivity.
  - run_iteration;
      try (match goal with
           | |- context [Imu.while_not_done _ _ _ ?w1] =>
               destruct (IH w1) as (tr & -> & Hd)
           end;
           extend_trace; cbn [app dispatch_ok negb andb]; read_results;
           cbn [app dispatch_ok negb andb]; exact Hd);
      (end_trace; reflexivity).
Qed.

(** X10.  In the console [read_loop] the sample is printed exactly when the
    read returned 0, and at once: every [print_fused_euler_angles] follows a
    read that returned 0 with no other read or delay in between, and every
    such read is followed by its print before the next delay or read. *)
Theorem X10_console_prints_each_fresh_sample_at_once fuel rate e w :
  exists tr,
    trace (Imu.read_loop fuel rate e w).2 = trace w ++ tr
    /\ dispatch_ok false tr = true.
Proof.
  unfold Imu.read_loop.
  destruct (rate =? 0).
  - exists []. cbn. rewrite app_nil_r. split; reflexivity.
  - set (d := Imu.loop_delay_of rate).
    unfold bind, printf, linux_delay_ms, intr, sigint_handler, emit, log. cbn.
    destruct (sigint_at e (nintr w)); cbn;
      match goal with
      | |- context [Imu.while_not_done ?f ?d0 ?e0 ?w1] =>
          destruct (imu_loop_dispatch d0 e0 f w1) as (tr & Ht & Hd);
          revert Ht; destruct (Imu.while_not_done f d0 e0 w1) as [[[]| |] w2]
      end;
      cbn; intros ->.
    all: try (exists ([EvPrintf (nl +:+ "Entering read loop (ctrl-c to exit)" +:+ nl +:+ nl);
                       EvSigint; EvDelay (Imu.loop_delay_of rate)]
                      ++ tr ++ [EvPrintf (nl +:+ nl)]);
              split; [rewrite <- !app_assoc; reflexivity|];
              cbn [app dispatch_ok negb andb];
              apply dispatch_ok_app; [exact Hd|reflexivity]).
    all: try (exists ([EvPrintf (nl +:+ "Entering read loop (ctrl-c to exit)" +:+ nl +:+ nl);
                       EvSigint; EvDelay (Imu.loop_delay_of rate)] ++ tr);
              split; [rewrite <- !app_assoc; reflexivity|];
              cbn [app dispatch_ok negb andb]; exact Hd).
    all: try (exists ([EvPrintf (nl +:+ "Entering read loop (ctrl-c to exit)" +:+ nl +:+ nl);
                       EvDelay (Imu.loop_delay_of rate)]
                      ++ tr ++ [EvPrintf (nl +:+ nl)]);
              split; [rewrite <- !app_assoc; reflexivity|];
              cbn [app dispatch_ok negb andb];
              apply dispatch_ok_app; [exact Hd|reflexivity]).
    all: exists ([EvPrintf (nl +:+ "Entering read loop (ctrl-c to exit)" +:+ nl +:+ nl);
                  EvDelay (Imu.loop_delay_of rate)] ++ tr);
         (split; [rewrite <- !app_assoc; reflexivity|]);
         cbn [app dispatch_ok negb andb]; exact Hd.
Qed.

(** X11.  SIGINT does not stop the publisher: whatever signals arrive, as
    long as ros::ok() holds the loop of its [main] goes on, one read per
    iteration, for as many iterations as it is given. *)
Theorem X11_publisher_not_stopped_by_sigint fuel o e w :
  0 <= sigaction_ret e -> init_ret e = 0 -> sample_rate o <> 0 ->
  (forall k, ros_ok e k = true) ->
  (Node.main fuel o e w).1 = Timeout
  /\ exists tr,
       trace (Node.main fuel o e w).2 = trace w ++ tr
       /\ count is_read tr = fuel
       /\ count is_publish tr = fuel.
Proof.
  intros Hs Hi Hrate Hok. apply Z.eqb_neq in Hrate.
  destruct (node_main_started fuel o e w Hs Hi)
    as (r1 & r2 & ev1 & ev2 & _ & _ & Hev1 & Hev2 & ->).
  rewrite Hrate. set (d := Node.loop_delay_of _).
  apply cal_event_kind in Hev1 as (_ & Hr1 & _ & _ & _ & Hp1).
  apply cal_event_kind in Hev2 as (_ & Hr2 & _ & _ & _ & Hp2).
  unfold bind, printf, linux_delay_ms, intr, sigint_handler, emit, ret.
  cbn [fst snd].
  destruct (sigint_at e (nintr (log _ (started o ev1 ev2 w))));
    match goal with
    | |- context [Node.while_ros_ok fuel 0 e ?w1] =>
        destruct (node_loop_runs_on e fuel Hok 0 w1) as (Hout & tr & Ht & Hc);
        destruct (node_loop_trace e fuel 0 w1) as (tr' & Ht' & _ & Hc' & _);
        rewrite Ht in Ht'; apply app_inv_head in Ht'; subst tr';
        revert Ht Hout; destruct (Node.while_ros_ok fuel 0 e w1) as [out w2]
    end;
    cbn [fst snd]; intros Ht ->; (split; [reflexivity|]);
    cbn [fst snd]; rewrite Ht; cbn [trace log]; rewrite started_trace.
  - exists ([EvSetDebug (verbose o);
             EvInit (i2c_bus o) (sample_rate o) (yaw_mix_factor o); ev1; ev2;
             EvPrintf (nl +:+ "Entering MPU read loop (ctrl-c to exit)" +:+ nl +:+ nl);
             EvSigint; EvDelay d] ++ tr).
    split; [rewrite <- !app_assoc; reflexivity|].
    repeat first [rewrite count_cons|rewrite count_app|rewrite count_nil].
    rewrite Hr1, Hr2, Hp1, Hp2, Hc', Hc. cbn. split; reflexivity.
  - exists ([EvSetDebug (verbose o);
             EvInit (i2c_bus o) (sample_rate o) (yaw_mix_factor o); ev1; ev2;
             EvPrintf (nl +:+ "Entering MPU read loop (ctrl-c to exit)" +:+ nl +:+ nl);
             EvDelay d] ++ tr).
    split; [rewrite <- !app_assoc; reflexivity|].
    repeat first [rewrite count_cons|rewrite count_app|rewrite count_nil].
    rewrite Hr1, Hr2, Hp1, Hp2, Hc', Hc. cbn. split; reflexivity.
Qed.

(** X11 with SIGINT at every interruption point. *)
Lemma X11_witness :
  let e := {| fs := ∅; sigaction_ret := 0; init_ret := 0;
              read_ret := fun _ => 0; ros_ok := fun _ => true;
              sigint_at := fun _ => true |} in
  (Node.main 4 (default_options 10) e world0).1 = Timeout
  /\ exists tr,
       trace (Node.main 4 (default_options 10) e world0).2 = trace world0 ++ tr
       /\ count is_read tr = 4%nat
       /\ count is_publish tr = 4%nat.
Proof.
  apply (X11_publisher_not_stopped_by_sigint 4 (default_options 10)
           {| fs := ∅; sigaction_ret := 0; init_ret := 0;
              read_ret := fun _ => 0; ros_ok := fun _ => true;
              sigint_at := fun _ => true |} world0).
  - cbn. lia.
  - reflexivity.
  - cbn. lia.
  - reflexivity.
Defined.

Lemma to_int_succ n m : to_int n = to_int m -> to_int (n + 1) = to_int (m + 1).
Proof.
  unfold to_int, swrap. change (2 ^ (32 - 1)) with 2147483648.
  change (2 ^ 32) with 4294967296. intros H.
  assert ((n + 2147483648) mod 4294967296 = (m + 2147483648) mod 4294967296)
    as H' by lia.
  replace (n + 1 + 2147483648) with ((n + 2147483648) + 1) by lia.
  replace (m + 1 + 2147483648) with ((m + 2147483648) + 1) by lia.
  rewrite (Z.add_mod (n + 2147483648)), (Z.add_mod (m + 2147483648)) by lia.
  rewrite H'. reflexivity.
Qed.

Lemma to_int_idem n : to_int (to_int n) = to_int n.
Proof. apply to_int_id, to_int_in_int. Qed.

Lemma counter_ok_congruent tr : forall n m,
  to_int n = to_int m -> counter_ok n tr = counter_ok m tr.
Proof.
  induction tr as [|ev tr IH]; intros n m H; [reflexivity|].
  destruct ev; cbn [counter_ok]; try (apply IH; exact H).
  - rewrite H. f_equal. apply IH, H.
  - apply IH, to_int_succ, H.
Qed.

Ltac skip_startup :=
  match goal with
  | |- counter_ok 0 (_ :: _ :: ?ev1 :: ?ev2 :: ?r) = true =>
      change (counter_ok 0 (ev1 :: ev2 :: r) = true)
  end.

Lemma node_loop_counter e fuel : forall c w,
  to_int c = c ->
  exists tr,
    trace (Node.while_ros_ok fuel c e w).2 = trace w ++ tr
    /\ counter_ok c tr = true.
Proof.
  induction fuel as [|fuel IH]; intros c w Hc.
  - exists []. cbn. rewrite app_nil_r. split; reflexivity.
  - run_iteration;
      try (match goal with
           | |- context [Node.while_ros_ok _ ?c1 _ ?w1] =>
               destruct (IH c1 w1 (to_int_idem _)) as (tr & -> & Hd)
           end;
           extend_trace; cbn [app counter_ok]; rewrite ?Hc, ?Z.eqb_refl;
           cbn [andb];
           rewrite (counter_ok_congruent tr (c + 1) (to_int (c + 1)))
             by (symmetry; apply to_int_idem);
           exact Hd);
      (end_trace; reflexivity).
Qed.

(** X12.  The counter that the publisher writes into a message is the
    number of messages published before it in the run, as an [int]: it
    starts at 0 and goes up by one with every [publish], whether the
    message published was set or left empty. *)
Theorem X12_publisher_counter_counts_publishes fuel o e w :
  exists tr,
    trace (Node.main fuel o e w).2 = trace w ++ tr
    /\ counter_ok 0 tr = true.
Proof.
  destruct (Z.ltb_spec (sigaction_ret e) 0) as [Hs|Hs];
    [|destruct (Z.eq_dec (init_ret e) 0) as [Hi|Hi]].
  - unfold Node.main, register_sig_handler, bind, ask, perror, exit, emit, log.
    apply Z.ltb_lt in Hs. rewrite Hs. cbn. eexists. split; reflexivity.
  - destruct (node_main_started fuel o e w Hs Hi)
      as (r1 & r2 & ev1 & ev2 & _ & _ & Hev1 & Hev2 & ->).
    assert (forall n tr, counter_ok n (ev1 :: ev2 :: tr) = counter_ok n tr) as Hcal.
    { intros n tr. destruct ev1; try discriminate Hev1;
        destruct ev2; try discriminate Hev2; reflexivity. }
    destruct (sample_rate o =? 0).
    + cbn [ret fst snd]. rewrite started_trace. eexists. split; [reflexivity|].
      change (counter_ok 0 [ev1; ev2] = true). rewrite Hcal. reflexivity.
    + set (d := Node.loop_delay_of _).
      unfold bind, printf, linux_delay_ms, intr, sigint_handler, emit, ret.
      cbn [fst snd].
      destruct (sigint_at e (nintr (log _ (started o ev1 ev2 w))));
        match goal with
        | |- context [Node.while_ros_ok fuel 0 e ?w1] =>
            destruct (node_loop_counter e fuel 0 w1 eq_refl) as (tr & Ht & Hc);
            revert Ht; destruct (Node.while_ros_ok fuel 0 e w1) as [[[]| |] w2]
        end;
        cbn [fst snd]; intros ->; cbn [trace log]; rewrite started_trace.
      all: try (exists ([EvSetDebug (verbose o);
                  EvInit (i2c_bus o) (sample_rate o) (yaw_mix_factor o); ev1; ev2;
                  EvPrintf (nl +:+ "Entering MPU read loop (ctrl-c to exit)" +:+ nl +:+ nl);
                  EvSigint; EvDelay d] ++ tr);
                split; [rewrite <- !app_assoc; reflexivity|];
                cbn [app]; skip_startup; rewrite Hcal; exact Hc).
      all: exists ([EvSetDebug (verbose o);
                  EvInit (i2c_bus o) (sample_rate o) (yaw_mix_factor o); ev1; ev2;
                  EvPrintf (nl +:+ "Entering MPU read loop (ctrl-c to exit)" +:+ nl +:+ nl);
                  EvDelay d] ++ tr);
           (split; [rewrite <- !app_assoc; reflexivity|]);
           cbn [app]; skip_startup; rewrite Hcal; exact Hc.
  - unfold Node.main, register_sig_handler, mpu9150_set_debug, mpu9150_init,
      bind, ask, perror, exit, emit, ret, log.
    apply Z.ltb_ge in Hs. rewrite Hs. apply Z.eqb_neq in Hi. cbn. rewrite Hi.
    cbn. eexists. split; [rewrite <- app_assoc; reflexivity|]. reflexivity.
Qed.

Lemma imu_loop_flag d e fuel : forall w,
  exists tr,
    trace (Imu.while_not_done fuel d e w).2 = trace w ++ tr
    /\ done (Imu.while_not_done fuel d e w).2
       = (if (count is_sigint tr =? 0)%nat then done w else 1)
    /\ ((Imu.while_not_done fuel d e w).1 = Ret tt
        -> done (Imu.while_not_done fuel d e w).2 <> 0).
Proof.
  induction fuel as [|fuel IH]; intros w.
  - exists []. cbn. rewrite app_nil_r. repeat split. discriminate.
  - run_iteration;
      try (match goal with
           | |- context [Imu.while_not_done _ _ _ ?w1] =>
               destruct (IH w1) as (tr & -> & Hd & Hr)
           end;
           extend_trace; split; [|exact Hr]; rewrite Hd; cbn [done];
           repeat first [rewrite count_cons|rewrite count_app|rewrite count_nil];
           cbn; destruct (count is_sigint tr); reflexivity);
      (end_trace; split; [reflexivity|]; intros _;
       try (apply Z.eqb_neq; assumption); cbn; lia).
Qed.

(** X13.  The console program stops sampling only on SIGINT: when [main]
    is started with the flag clear and a sample rate other than 0 and
    returns, a SIGINT was delivered during the run and the flag is 1. *)
Theorem X13_console_returns_only_after_sigint fuel o e w v w' :
  done w = 0 -> to_uint (sample_rate o) <> 0 ->
  Imu.main fuel o e w = (Ret v, w') ->
  done w' = 1
  /\ exists tr,
       trace w' = trace w ++ tr /\ (1 <= count is_sigint tr)%nat.
Proof.
  intros Hd0 Hrate Hm.
  destruct (Z.ltb_spec (sigaction_ret e) 0) as [Hs|Hs];
    [destruct (main_startup_fails fuel o e w (or_introl Hs)) as (tr & H & _);
     congruence|].
  destruct (Z.eq_dec (init_ret e) 0) as [Hi|Hi];
    [|destruct (main_startup_fails fuel o e w (or_intror Hi)) as (tr & H & _);
      congruence].
  destruct (imu_main_started fuel o e w Hs Hi)
    as (r1 & r2 & ev1 & ev2 & _ & _ & _ & _ & Hrun).
  rewrite Hrun in Hm. clear Hrun.
  apply Z.eqb_neq in Hrate. unfold Imu.read_loop in Hm. rewrite Hrate in Hm.
  set (d := Imu.loop_delay_of _) in Hm.
  pose proof (started_trace o ev1 ev2 w) as Hst.
  assert (done (started o ev1 ev2 w) = 0) as Hd by exact Hd0.
  set (w0 := started o ev1 ev2 w) in *. clearbody w0.
  unfold bind, printf, linux_delay_ms, mpu9150_exit, intr, sigint_handler,
    emit, ret, log in Hm. cbn in Hm.
  destruct (sigint_at e (nintr w0)); cbn in Hm;
    match type of Hm with
    | context [Imu.while_not_done ?f ?d0 ?e0 ?w1] =>
        destruct (imu_loop_flag d0 e0 f w1) as (tr & Ht & Hf & Hr);
        revert Ht Hf Hr Hm;
        destruct (Imu.while_not_done f d0 e0 w1) as [[[]| |] w2]
    end;
    cbn; intros Ht Hf Hr Hm; try discriminate Hm;
    injection Hm as <- <-; cbn [done trace]; rewrite Ht, Hst;
    specialize (Hr eq_refl).
  - split; [destruct (count is_sigint tr =? 0)%nat; exact Hf|].
    exists ([EvSetDebug (verbose o);
             EvInit (i2c_bus o) (sample_rate o) (yaw_mix_factor o); ev1; ev2]
            ++ [EvPrintf (nl +:+ "Entering read loop (ctrl-c to exit)" +:+ nl +:+ nl);
                EvSigint; EvDelay d] ++ tr ++ [EvPrintf (nl +:+ nl); EvExit]).
    split; [rewrite <- !app_assoc; reflexivity|].
    rewrite !count_app.
    repeat first [rewrite count_cons|rewrite count_app|rewrite count_nil].
    cbn. lia.
  - rewrite Hd in Hf.
    destruct (Nat.eqb_spec (count is_sigint tr) 0) as [Hz|Hz]; [congruence|].
    split; [exact Hf|].
    exists ([EvSetDebug (verbose o);
             EvInit (i2c_bus o) (sample_rate o) (yaw_mix_factor o); ev1; ev2]
            ++ [EvPrintf (nl +:+ "Entering read loop (ctrl-c to exit)" +:+ nl +:+ nl);
                EvDelay d] ++ tr ++ [EvPrintf (nl +:+ nl); EvExit]).
    split; [rewrite <- !app_assoc; reflexivity|].
    rewrite !count_app. lia.
Qed.

(** X13 on a run at 10 Hz that SIGINT ends in its second cycle. *)
Lemma X13_witness :
  let e := run_env (fun _ => 0) 0 (fun k => (k =? 6)%nat) in
  exists w' tr,
    Imu.main 10 (default_options 10) e world0 = (Ret 0, w')
    /\ done w' = 1
    /\ trace w' = trace world0 ++ tr /\ (1 <= count is_sigint tr)%nat.
Proof.
  cbv zeta.
  destruct (Imu.main 10 (default_options 10)
              (run_env (fun _ => 0) 0 (fun k => (k =? 6)%nat)) world0)
    as [out w'] eqn:Hrun.
  assert (out = Ret 0) as -> by (vm_compute in Hrun; congruence).
  destruct (X13_console_returns_only_after_sigint 10 (default_options 10)
              (run_env (fun _ => 0) 0 (fun k => (k =? 6)%nat)) world0 0 w')
    as (Hd & tr & Ht & Hc).
  - reflexivity.
  - vm_compute. discriminate.
  - exact Hrun.
  - exists w', tr. repeat split; assumption.
Defined.

(** ** The delay and the calibration entry: further properties *)

(** X14.  Above 500 Hz the delay is not clamped at 0: 1000 / rate - 2 is
    -1 or -2, which the console's [unsigned int] arithmetic turns into
    2^32 - 1 or 2^32 - 2 ms and the publisher's [int] stored in an
    [unsigned long] into 2^64 - 1 or 2^64 - 2 ms. *)
Theorem X14_delay_wraps_above_500 rate :
  500 < rate <= INT_MAX ->
  -2 <= 1000 / rate - 2 <= -1
  /\ Imu.loop_delay_of rate = 2 ^ 32 + (1000 / rate - 2)
  /\ Node.loop_delay_of rate = 2 ^ 64 + (1000 / rate - 2).
Proof.
  unfold INT_MAX. intros Hr.
  assert (Z.quot 1000 rate = 1000 / rate) as Hq
    by (apply Z.quot_div_nonneg; lia).
  assert (0 <= 1000 / rate) as H0 by (apply Z.div_pos; lia).
  assert (1000 / rate < 2) as H2 by (apply Z.div_lt_upper_bound; lia).
  unfold Imu.loop_delay_of, Node.loop_delay_of. rewrite Hq.
  assert (1000 / rate = 0 \/ 1000 / rate = 1) as [-> | ->] by lia;
    repeat split; try lia; reflexivity.
Qed.

(** X14 at 1001 Hz. *)
Lemma X14_witness :
  Imu.loop_delay_of 1001 = 4294967294
  /\ Node.loop_delay_of 1001 = 18446744073709551614.
Proof.
  destruct (X14_delay_wraps_above_500 1001) as (_ & HI & HN).
  - unfold INT_MAX. lia.
  - split; [exact HI|exact HN].
Defined.

Lemma quot2_between a b : a <= b -> a <= Z.quot (a + b) 2 <= b.
Proof.
  intros H. pose proof (Z.quot_rem' (a + b) 2) as Hq.
  pose proof (Z.rem_bound_abs (a + b) 2 ltac:(lia)). lia.
Qed.

Lemma quot2_range a b :
  in_short a -> in_short b -> a <= b -> b - Z.quot (a + b) 2 <= SHRT_MAX.
Proof.
  unfold in_short, SHRT_MIN, SHRT_MAX. intros Ha Hb H.
  pose proof (Z.quot_rem' (a + b) 2) as Hq.
  destruct (Z_lt_le_dec (a + b) 0) as [Hn|Hp].
  - pose proof (Z.rem_nonpos (a + b) 2 ltac:(lia) ltac:(lia)). lia.
  - pose proof (Z.rem_bound_pos (a + b) 2 Hp ltac:(lia)). lia.
Qed.

(** X15.  A calibration file of six non-zero values within the range of
    [short], each minimum not above its maximum, is loaded as written:
    the setter gets the formula's entry unchanged, and in it every offset
    lies between its minimum and its maximum and every range is the
    distance from the offset to the maximum, between 0 and max - min. *)
Theorem X15_well_formed_file_gives_sane_entry e w mag cal_file f v0 v1 v2 v3 v4 v5 :
  cal_stream e mag cal_file = Some f ->
  cal_values f = [v0; v1; v2; v3; v4; v5] ->
  0 ∉ cal_values f ->
  Forall in_short [v0; v1; v2; v3; v4; v5] ->
  v0 <= v1 -> v2 <= v3 -> v4 <= v5 ->
  exists o0 o1 o2 r0 r1 r2,
    Imu.set_cal mag cal_file e w
    = (Ret 0, log (setter mag {| offset := [o0; o1; o2];
                                 range := [r0; r1; r2] |}) w)
    /\ Node.set_cal mag cal_file e w = Imu.set_cal mag cal_file e w
    /\ (v0 <= o0 <= v1 /\ v2 <= o1 <= v3 /\ v4 <= o2 <= v5)
    /\ (o0 + r0 = v1 /\ o1 + r1 = v3 /\ o2 + r2 = v5)
    /\ (0 <= r0 <= v1 - v0 /\ 0 <= r1 <= v3 - v2 /\ 0 <= r2 <= v5 - v4).
Proof.
  intros Hs Hv Hnz Hin H01 H23 H45.
  repeat match goal with
         | H : Forall _ (_ :: _) |- _ => inversion H; clear H; subst
         end.
  pose proof (quot2_range v0 v1 ltac:(assumption) ltac:(assumption) H01).
  pose proof (quot2_range v2 v3 ltac:(assumption) ltac:(assumption) H23).
  pose proof (quot2_range v4 v5 ltac:(assumption) ltac:(assumption) H45).
  unfold in_short, SHRT_MIN, SHRT_MAX in *.
  pose proof (quot2_between v0 v1 H01). pose proof (quot2_between v2 v3 H23).
  pose proof (quot2_between v4 v5 H45).
  exists (Z.quot (v0 + v1) 2), (Z.quot (v2 + v3) 2), (Z.quot (v4 + v5) 2),
    (v1 - Z.quot (v0 + v1) 2), (v3 - Z.quot (v2 + v3) 2),
    (v5 - Z.quot (v4 + v5) 2).
  split; [|repeat split; lia].
  rewrite (set_cal_stream _ _ _ _ _ Hs).
  rewrite (set_cal_opened_ok _ _ _ _ _ _ _ _ _ _ Hv Hnz).
  rewrite narrow_fits; [reflexivity|].
  unfold fits_short. cbn [formula_cal offset range app].
  repeat (apply Forall_cons_2;
          [unfold in_short, SHRT_MIN, SHRT_MAX; lia|]).
  apply Forall_nil_2.
Qed.

(** X15 on the lines 100, 300, -50, 50, 10, 20. *)
Lemma X15_witness :
  let e := quiet_env {[ "./accelcal.txt" := scenario_file ]} (fun _ => 0) in
  exists o0 o1 o2 r0 r1 r2,
    Imu.set_cal 0 None e world0
    = (Ret 0, log (setter 0 {| offset := [o0; o1; o2];
                               range := [r0; r1; r2] |}) world0)
    /\ 100 <= o0 <= 300 /\ o0 + r0 = 300.
Proof.
  destruct (X15_well_formed_file_gives_sane_entry
              (quiet_env {[ "./accelcal.txt" := scenario_file ]} (fun _ => 0))
              world0 0 None scenario_file 100 300 (-50) 50 10 20)
    as (o0 & o1 & o2 & r0 & r1 & r2 & Hr & _ & (Ho & _) & (Hsum & _) & _).
  - reflexivity.
  - reflexivity.
  - intros H. repeat (apply elem_of_cons in H as [H|H]; [discriminate H|]).
    apply elem_of_nil in H. exact H.
  - repeat (apply Forall_cons_2; [vm_compute; split; discriminate|]).
    apply Forall_nil_2.
  - lia.
  - lia.
  - lia.
  - exists o0, o1, o2, r0, r1, r2. split; [exact Hr|]. split; [exact Ho|exact Hsum].
Defined.

Lemma read_vals_lines n : forall i f g val e w,
  lines n f = lines n g ->
  Imu.read_vals n i f val e w = Imu.read_vals n i g val e w.
Proof.
  induction n as [|n IH]; intros i f g val e w H; [reflexivity|].
  cbn [lines Imu.read_vals] in *.
  destruct (fgets 20 f) as [[bf f']|], (fgets 20 g) as [[bg g']|];
    try discriminate H; [|reflexivity].
  injection H as -> H. unfold bind.
  destruct (<[i:=atoi bg]> val !!! i =? 0); [reflexivity|].
  apply IH, H.
Qed.

Lemma read_vals_env n : forall i f val e e' w,
  Imu.read_vals n i f val e w = Imu.read_vals n i f val e' w.
Proof.
  induction n as [|n IH]; intros i f val e e' w; [reflexivity|].
  cbn [Imu.read_vals].
  destruct (fgets 20 f) as [[b f']|]; [|reflexivity].
  destruct (<[i:=atoi b]> val !!! i =? 0); [reflexivity|]. apply IH.
Qed.

(** X16.  [set_cal] looks at no more than the first six pieces that
    [fgets(buff, 20, f)] delivers: two calibration files that agree on them
    are loaded alike, whatever their names and whatever follows in them. *)
Theorem X16_only_six_lines_are_read e e' w mag cal_file cal_file' f g :
  cal_stream e mag cal_file = Some f ->
  cal_stream e' mag cal_file' = Some g ->
  cal_lines f = cal_lines g ->
  Imu.set_cal mag cal_file e w = Imu.set_cal mag cal_file' e' w
  /\ Node.set_cal mag cal_file e w = Node.set_cal mag cal_file' e' w.
Proof.
  intros Hf Hg Hl.
  assert (Imu.set_cal mag cal_file e w = Imu.set_cal mag cal_file' e' w) as HI.
  { rewrite (set_cal_stream _ _ _ _ _ Hf), (set_cal_stream _ _ _ _ _ Hg).
    unfold Imu.set_cal_opened, bind.
    rewrite (read_vals_lines 6 0 f g _ e w Hl).
    rewrite (read_vals_env 6 0 g _ e e' w).
    destruct (Imu.read_vals 6 0 g (replicate 6 0) e' w) as [[[i val]| |] w1];
      try reflexivity.
    cbn [fst snd]. destruct (negb (i =? 6)%nat); [reflexivity|].
    destruct (negb (mag =? 0)); reflexivity. }
  split; [exact HI|]. exact HI.
Qed.

(** X16 on the scenario file and the same file followed by a line "0",
    which would be refused if it were read. *)
Lemma X16_witness :
  let g := scenario_file +:+ "0" +:+ nl in
  let e := quiet_env {[ "./accelcal.txt" := scenario_file ]} (fun _ => 0) in
  let e' := quiet_env {[ "long.txt" := g ]} (fun _ => 0) in
  Imu.set_cal 0 None e world0 = Imu.set_cal 0 (Some "long.txt") e' world0.
Proof.
  refine (proj1 (X16_only_six_lines_are_read
                   (quiet_env {[ "./accelcal.txt" := scenario_file ]} (fun _ => 0))
                   (quiet_env {[ "long.txt" := scenario_file +:+ "0" +:+ nl ]}
                      (fun _ => 0))
                   world0 0 None (Some "long.txt") scenario_file
                   (scenario_file +:+ "0" +:+ nl) _ _ _)).
  - reflexivity.
  - reflexivity.
  - reflexivity.
Defined.

(** ** The command line: what is accepted *)

Lemma bounds_valid lo hi v :
  (v <? lo) || (hi <? v) = false -> (lo <=? v) && (v <=? hi) = true.
Proof.
  intros H. apply bounds_checked in H. apply andb_true_iff. split; lia.
Qed.

Lemma bounds_invalid lo hi v :
  (v <? lo) || (hi <? v) = true -> (lo <=? v) && (v <=? hi) = false.
Proof.
  intros H. apply andb_false_iff. apply orb_true_iff in H as [H|H]; [left|right]; lia.
Qed.

(** The option loop ends by [Ret] only if every option is a valid one. *)
Lemma imu_getopt_loop_valid d c a opts : forall o k j e w,
  match (Imu.getopt_loop d c a opts o k j e w).1 with
  | Ret _ => forallb (valid_option d) opts = true
  | _ => True
  end.
Proof.
  induction opts as [|[opt arg] rest IH]; intros o k j e w.
  - reflexivity.
  - cbn [Imu.getopt_loop forallb]. unfold valid_option at 1, known_option.
    cbn [fst snd].
    repeat (match goal with
            | |- context [Ascii.eqb opt ?x] => destruct (Ascii.eqb opt x) eqn:?
            end; cbn [orb andb]);
      option_case; try exact I;
      match goal with
      | |- context [Imu.getopt_loop _ _ _ _ ?o1 ?k1 ?j1 ?e1 ?w1] =>
          pose proof (IH o1 k1 j1 e1 w1) as Hs;
          destruct (Imu.getopt_loop d c a rest o1 k1 j1 e1 w1) as [[o'| |] w']
      end; try exact I;
      cbn [fst] in *; rewrite Hs;
      try reflexivity;
      match goal with
      | H : _ || _ = false |- _ => apply bounds_valid in H; cbn in H; rewrite H
      end; reflexivity.
Qed.

(** With errno never EINVAL and [malloc] succeeding, the option loop ends
    by [Ret] when every option is valid, and by [exit(1)] otherwise. *)
Lemma imu_getopt_loop_complete d c a opts :
  (forall k, einval c k = false) -> (forall j, malloc_ok c j = true) ->
  forall o k j e w,
    if forallb (valid_option d) opts
    then exists o', Imu.getopt_loop d c a opts o k j e w = (Ret o', w)
    else exists tr, Imu.getopt_loop d c a opts o k j e w = (Exit 1, logged tr w).
Proof.
  intros He Hm.
  induction opts as [|[opt arg] rest IH]; intros o k j e w.
  - exists o. reflexivity.
  - cbn [Imu.getopt_loop forallb]. unfold valid_option at 1, known_option.
    cbn [fst snd]. rewrite ?He, ?Hm. unfold copy_optarg. rewrite ?Hm.
    repeat (match goal with
            | |- context [Ascii.eqb opt ?x] => destruct (Ascii.eqb opt x) eqn:?
            end; cbn [orb andb]);
      option_case;
      try (rewrite ?log_logged, ?logged_logged; eexists; reflexivity);
      try (match goal with
           | H : _ || _ = true |- _ =>
               apply bounds_invalid in H; cbn in H; rewrite H
           end; cbn [andb];
           rewrite ?log_logged, ?logged_logged; eexists; reflexivity);
      try (match goal with
           | H : _ || _ = false |- _ =>
               apply bounds_valid in H; cbn in H; rewrite H
           end; cbn [andb]);
      match goal with
      | |- context [Imu.getopt_loop _ _ _ _ ?o1 ?k1 ?j1 ?e1 ?w1] =>
          exact (IH o1 k1 j1 e1 w1)
      end.
Qed.

(** X17.  The option loop validates every option it is given, not only the
    last of a kind: a command line is accepted only if each of its options
    is one of b, s, y, a, m, v and each argument of b, s and y gives an
    [int] within the bounds. *)
Theorem X17_every_option_is_validated d c argv_0 opts e w o w' :
  Imu.parse_options d c argv_0 opts e w = (Ret o, w') ->
  forallb (valid_option d) opts = true.
Proof.
  unfold Imu.parse_options. intros H.
  pose proof (imu_getopt_loop_valid d c argv_0 opts (initial_options d) 0 0 e w)
    as Hv.
  rewrite H in Hv. exact Hv.
Qed.

(** X17 on -s5 -s0x14 -v. *)
Lemma X17_witness :
  let opts := [("s"%char, "5"); ("s"%char, "0x14"); ("v"%char, EmptyString)] in
  let o := {| i2c_bus := 1; sample_rate := 20; yaw_mix_factor := 4;
              verbose := 1; mag_cal_file := None; accel_cal_file := None |} in
  Imu.parse_options help_text_defaults quiet_cli "imu" opts
    (quiet_env ∅ (fun _ => 0)) world0 = (Ret o, world0)
  /\ forallb (valid_option help_text_defaults) opts = true.
Proof.
  cbv zeta. split; [reflexivity|].
  apply (X17_every_option_is_validated help_text_defaults quiet_cli "imu"
           [("s"%char, "5"); ("s"%char, "0x14"); ("v"%char, EmptyString)]
           (quiet_env ∅ (fun _ => 0)) world0
           {| i2c_bus := 1; sample_rate := 20; yaw_mix_factor := 4; verbose := 1;
              mag_cal_file := None; accel_cal_file := None |} world0).
  reflexivity.
Defined.

(** X18.  Nothing else is refused: when errno is never EINVAL and [malloc]
    succeeds, both option loops accept every command line made of valid
    options, with the same configuration and nothing printed; and they
    refuse, by [exit(1)], every command line that holds an option that is
    not valid. *)
Theorem X18_valid_command_lines_are_accepted d c argv_0 opts e w :
  (forall k, einval c k = false) -> (forall j, malloc_ok c j = true) ->
  (forallb (valid_option d) opts = true ->
   exists o,
     Imu.parse_options d c argv_0 opts e w = (Ret o, w)
     /\ Node.parse_options d c argv_0 opts e w = (Ret o, w))
  /\ (forallb (valid_option d) opts = false ->
      (Imu.parse_options d c argv_0 opts e w).1 = Exit 1
      /\ (Node.parse_options d c argv_0 opts e w).1 = Exit 1).
Proof.
  intros He Hm. unfold Imu.parse_options, Node.parse_options.
  pose proof (imu_getopt_loop_complete d c argv_0 opts He Hm
                (initial_options d) 0 0 e w) as Hc.
  destruct (node_getopt_loop_alike d c argv_0 opts (initial_options d) 0 0 e w)
    as [(o & HI & HN)|(tr & tr' & HI & HN & _)];
    (split; intros Hv; rewrite Hv in Hc).
  - exists o. split; assumption.
  - destruct Hc as [tr Hc]. congruence.
  - destruct Hc as [o Hc]. congruence.
  - rewrite HI, HN. split; reflexivity.
Qed.

(** X18 on -b3 -s20 -y10, and on -s51. *)
Lemma X18_witness :
  (exists o,
     Imu.parse_options help_text_defaults quiet_cli "imu"
       [("b"%char, "3"); ("s"%char, "20"); ("y"%char, "10")]
       (quiet_env ∅ (fun _ => 0)) world0 = (Ret o, world0))
  /\ (Node.parse_options help_text_defaults quiet_cli "imu"
        [("s"%char, "51")] (quiet_env ∅ (fun _ => 0)) world0).1 = Exit 1.
Proof.
  split.
  - destruct (proj1 (X18_valid_command_lines_are_accepted help_text_defaults
                       quiet_cli "imu"
                       [("b"%char, "3"); ("s"%char, "20"); ("y"%char, "10")]
                       (quiet_env ∅ (fun _ => 0)) world0
                       (fun _ => eq_refl) (fun _ => eq_refl)) eq_refl)
      as (o & H & _).
    exists o. exact H.
  - exact (proj2 (proj2 (X18_valid_command_lines_are_accepted help_text_defaults
                           quiet_cli "imu" [("s"%char, "51")]
                           (quiet_env ∅ (fun _ => 0)) world0
                           (fun _ => eq_refl) (fun _ => eq_refl)) eq_refl)).
Defined.


(** X19.  A sample rate of 0 cannot come from the command line: when the
    lowest rate allowed is at least 1 and the default is an [int] other
    than 0, as in the help text (2 to 50, default 10), every command line
    that either option loop accepts leaves a rate other than 0, also as the
    [unsigned int] that [read_loop] receives; the tests of
    [sample_rate == 0] then never succeed in a run. *)
Theorem X19_accepted_rate_is_not_zero d c argv_0 opts e w o w' :
  1 <= MIN_SAMPLE_RATE d ->
  in_int (DEFAULT_SAMPLE_RATE_HZ d) -> DEFAULT_SAMPLE_RATE_HZ d <> 0 ->
  Imu.parse_options d c argv_0 opts e w = (Ret o, w')
  \/ Node.parse_options d c argv_0 opts e w = (Ret o, w') ->
  sample_rate o <> 0 /\ to_uint (sample_rate o) <> 0.
Proof.
  intros Hmin Hint Hdef H.
  unfold Imu.parse_options, Node.parse_options in H.
  assert (Imu.getopt_loop d c argv_0 opts (initial_options d) 0 0 e w = (Ret o, w))
    as HI.
  { destruct (node_getopt_loop_alike d c argv_0 opts (initial_options d) 0 0 e w)
      as [(o2 & H2 & H3)|(tr1 & tr2 & H2 & H3 & _)];
      destruct H as [H|H]; congruence. }
  clear H.
  assert (checked d o) as (_ & Hrate & _).
  { destruct (imu_getopt_loop_spec d c argv_0 opts (initial_options d) 0 0 e w
                (initial_options_checked d))
      as [(o1 & H1 & Hc & _)|(tr & H1 & _)]; congruence. }
  assert (sample_rate o <> 0) as Hnz by lia.
  split; [exact Hnz|].
  assert (in_int (sample_rate o)) as Ho.
  { pose proof (imu_getopt_loop_settled d c argv_0 opts (initial_options d) 0 0 e w)
      as Hs.
    rewrite HI in Hs. cbn [fst] in Hs. destruct Hs as (_ & Hs & _).
    rewrite Hs. unfold num_or.
    destruct (last_arg "s" opts); [apply to_int_in_int|exact Hint]. }
  unfold in_int, INT_MIN, INT_MAX in Ho. unfold to_uint, wrap.
  change (2 ^ 32) with 4294967296.
  pose proof (Z.div_mod (sample_rate o) 4294967296 ltac:(lia)). lia.
Qed.

(** X19 on -s20 under the constants of the help text. *)
Lemma X19_witness :
  let o := {| i2c_bus := 1; sample_rate := 20; yaw_mix_factor := 4;
              verbose := 0; mag_cal_file := None; accel_cal_file := None |} in
  Node.parse_options help_text_defaults quiet_cli "imu" [("s"%char, "20")]
    (quiet_env ∅ (fun _ => 0)) world0 = (Ret o, world0)
  /\ sample_rate o <> 0 /\ to_uint (sample_rate o) <> 0.
Proof.
  cbv zeta. split; [reflexivity|].
  apply (X19_accepted_rate_is_not_zero help_text_defaults quiet_cli "imu"
           [("s"%char, "20")] (quiet_env ∅ (fun _ => 0)) world0
           {| i2c_bus := 1; sample_rate := 20; yaw_mix_factor := 4;
              verbose := 0; mag_cal_file := None; accel_cal_file := None |}
           world0).
  - cbn. lia.
  - vm_compute. split; discriminate.
  - cbn. lia.
  - right. reflexivity.
Defined.
